(** * A contact book: field validators, records and the address book

    Shallow embedding of [main.py]: the value classes [Name], [Phone] and
    [Birthday], the mutable [Record] and the [AddressBook] dictionary,
    the commands with their [input_error] decorator and one turn of the
    loop of [main], together with the parts of the Python standard library
    they rest on ([str.strip], [str.split], [str.isdigit],
    [datetime.strptime], [date.strftime], [date.replace], date
    subtraction).  [save_data] and [load_data] (pickle files) are events,
    not modelled further; [str.lower] is a parameter.

    Conventions.
    - A Python [str] is a sequence of Unicode code points: [list N].
    - A method that mutates [self] and may raise is a function
      [Record -> result A * Record]: the second component is the object
      after the call, also when the call raised.
    - The dictionary behind [AddressBook] keeps insertion order, so it is a
      list of key/value pairs whose keys are pairwise distinct. *)

From Stdlib Require Import ZArith NArith List Bool Ascii String Lia DecimalPos.
From stdpp Require Import base tactics option list numbers.

(* ================================================================== *)
(** ** Python strings                                                  *)
(* ================================================================== *)

Module Py.

Abbreviation char := N (only parsing).
Abbreviation str := (list N) (only parsing).

(** An ASCII literal of the source as a [str]. *)
Definition of_string (s : string) : str :=
  map N_of_ascii (list_ascii_of_string s).

Definition in_ranges (tbl : list (N * N)) (c : char) : bool :=
  existsb (fun r => (fst r <=? c)%N && (c <=? snd r)%N) tbl.

(** The code points [c] with [c.isspace()] (CPython's
    [_PyUnicode_IsWhitespace], Unicode 14.0); [str.strip()] removes these. *)
Definition whitespace_ranges : list (N * N) :=
  [ (0x9, 0xd); (0x1c, 0x20); (0x85, 0x85); (0xa0, 0xa0);
    (0x1680, 0x1680); (0x2000, 0x200a); (0x2028, 0x2029);
    (0x202f, 0x202f); (0x205f, 0x205f); (0x3000, 0x3000) ]%N.

Definition isspace (c : char) : bool := in_ranges whitespace_ranges c.

(** Code points of general category Nd (Numeric_Type = Decimal), Unicode
    14.0 as shipped with CPython 3.11.  Every run starts at a digit zero
    and holds whole decades, so the value of [c] is its offset in the
    run modulo ten.  [str.isdecimal], the [\d] of [re] on [str] patterns
    and [int()] use this set. *)
Definition decimal_ranges : list (N * N) :=
  [ (0x30, 0x39); (0x660, 0x669); (0x6f0, 0x6f9); (0x7c0, 0x7c9);
    (0x966, 0x96f); (0x9e6, 0x9ef); (0xa66, 0xa6f); (0xae6, 0xaef);
    (0xb66, 0xb6f); (0xbe6, 0xbef); (0xc66, 0xc6f); (0xce6, 0xcef);
    (0xd66, 0xd6f); (0xde6, 0xdef); (0xe50, 0xe59); (0xed0, 0xed9);
    (0xf20, 0xf29); (0x1040, 0x1049); (0x1090, 0x1099); (0x17e0, 0x17e9);
    (0x1810, 0x1819); (0x1946, 0x194f); (0x19d0, 0x19d9); (0x1a80, 0x1a89);
    (0x1a90, 0x1a99); (0x1b50, 0x1b59); (0x1bb0, 0x1bb9); (0x1c40, 0x1c49);
    (0x1c50, 0x1c59); (0xa620, 0xa629); (0xa8d0, 0xa8d9); (0xa900, 0xa909);
    (0xa9d0, 0xa9d9); (0xa9f0, 0xa9f9); (0xaa50, 0xaa59); (0xabf0, 0xabf9);
    (0xff10, 0xff19); (0x104a0, 0x104a9); (0x10d30, 0x10d39);
    (0x11066, 0x1106f); (0x110f0, 0x110f9); (0x11136, 0x1113f);
    (0x111d0, 0x111d9); (0x112f0, 0x112f9); (0x11450, 0x11459);
    (0x114d0, 0x114d9); (0x11650, 0x11659); (0x116c0, 0x116c9);
    (0x11730, 0x11739); (0x118e0, 0x118e9); (0x11950, 0x11959);
    (0x11c50, 0x11c59); (0x11d50, 0x11d59); (0x11da0, 0x11da9);
    (0x16a60, 0x16a69); (0x16ac0, 0x16ac9); (0x16b50, 0x16b59);
    (0x1d7ce, 0x1d7ff); (0x1e140, 0x1e149); (0x1e2f0, 0x1e2f9);
    (0x1e950, 0x1e959); (0x1fbf0, 0x1fbf9) ]%N.

(** Code points with Numeric_Type = Digit that are not decimal:
    superscripts, subscripts, circled and parenthesised digits and the
    like.  [str.isdigit] accepts them on top of the decimal ones. *)
Definition other_digit_ranges : list (N * N) :=
  [ (0xb2, 0xb3); (0xb9, 0xb9); (0x1369, 0x1371); (0x19da, 0x19da);
    (0x2070, 0x2070); (0x2074, 0x2079); (0x2080, 0x2089); (0x2460, 0x2468);
    (0x2474, 0x247c); (0x2488, 0x2490); (0x24ea, 0x24ea); (0x24f5, 0x24fd);
    (0x24ff, 0x24ff); (0x2776, 0x277e); (0x2780, 0x2788); (0x278a, 0x2792);
    (0x10a40, 0x10a43); (0x10e60, 0x10e68); (0x11052, 0x1105a);
    (0x1f100, 0x1f10a) ]%N.

Definition isdecimal_char (c : char) : bool := in_ranges decimal_ranges c.

Definition isdigit_char (c : char) : bool :=
  isdecimal_char c || in_ranges other_digit_ranges c.

(** The ten characters ['0'] .. ['9']. *)
Definition is_ascii_digit (c : char) : bool := (48 <=? c)%N && (c <=? 57)%N.

(** [Py_UNICODE_TODECIMAL]: the value of a decimal digit. *)
Definition decimal_value (c : char) : option Z :=
  match find (fun r => (fst r <=? c)%N && (c <=? snd r)%N) decimal_ranges with
  | Some r => Some (Z.of_N ((c - fst r) mod 10))
  | None => None
  end.

(** [s.isdigit()]: every character is a digit and there is at least one. *)
Definition isdigit (s : str) : bool :=
  match s with
  | [] => false
  | _ => forallb isdigit_char s
  end.

Fixpoint lstrip (s : str) : str :=
  match s with
  | c :: s' => if isspace c then lstrip s' else s
  | [] => []
  end.

Definition rstrip (s : str) : str := rev (lstrip (rev s)).

(** [s.strip()] with no argument. *)
Definition strip (s : str) : str := rstrip (lstrip s).

(** Truth value of a [str]: the empty string is the only false one. *)
Definition truthy (s : str) : bool :=
  match s with [] => false | _ => true end.

(** [sep.join(parts)]. *)
Fixpoint join (sep : str) (parts : list str) : str :=
  match parts with
  | [] => []
  | [p] => p
  | p :: ps => p ++ sep ++ join sep ps
  end.

(** [int(s)] for the strings the date parser passes to it: surrounding
    whitespace is dropped, what remains must be a non-empty run of
    decimal digits (signs and underscores never occur in a matched
    group and are treated as malformed).  [None] is [ValueError]. *)
Fixpoint int_digits (acc : Z) (s : str) : option Z :=
  match s with
  | [] => Some acc
  | c :: s' =>
      match decimal_value c with
      | Some v => int_digits (10 * acc + v) s'
      | None => None
      end
  end.

Definition int (s : str) : option Z :=
  match strip s with
  | [] => None
  | t => int_digits 0 t
  end.

End Py.

Import Py.

(* ================================================================== *)
(** ** Exceptions and results                                          *)
(* ================================================================== *)

Inductive exn : Type :=
  | ValueError (msg : string)
  | NameError (msg : string).

Inductive result (A : Type) : Type :=
  | Ok (a : A)
  | Raise (e : exn).

Arguments Ok {A} a.
Arguments Raise {A} e.

(** The two error kinds of the specification, as the exceptions the code
    raises for them. *)
Definition InvalidFormat_name : exn :=
  ValueError "Invalid name format. Name must not be empty.".
Definition InvalidFormat_phone : exn :=
  ValueError "Invalid phone  format. Phone must be 10 digits.".
Definition InvalidFormat_date : exn :=
  ValueError "Invalid date format. Use DD.MM.YYYY".
Definition NotFound_phone : exn := ValueError "Phone not found".
Definition NotFound_contact : exn := NameError "Contact not found".

(* ================================================================== *)
(** ** Field validators: Name and Phone                                *)
(* ================================================================== *)

Record Name : Type := mkName { Name_value : str }.
Record Phone : Type := mkPhone { Phone_value : str }.

(** [Name.is_valid]: returns the stripped value, used for its truth value. *)
Definition Name_is_valid (self : Name) : str := strip (Name_value self).

(** [Name.__init__]: the raw argument is stored as it is. *)
Definition Name_init (name : str) : result Name :=
  let self := mkName name in
  if negb (truthy (Name_is_valid self)) then Raise InvalidFormat_name
  else Ok self.

(** [Phone.is_valid] *)
Definition Phone_is_valid (self : Phone) : bool :=
  (length (Phone_value self) =? 10)%nat && isdigit (Phone_value self).

Definition Phone_init (phone : str) : result Phone :=
  let self := mkPhone phone in
  if negb (Phone_is_valid self) then Raise InvalidFormat_phone
  else Ok self.

(** [Field.__str__] *)
Definition Name_str (self : Name) : str := Name_value self.
Definition Phone_str (self : Phone) : str := Phone_value self.

(* ================================================================== *)
(** ** The [datetime] module                                           *)
(* ================================================================== *)

Module Datetime.

Record date : Type := mkdate { year : Z; month : Z; day : Z }.

Definition MINYEAR : Z := 1.
Definition MAXYEAR : Z := 9999.

Definition _DAYS_IN_MONTH : list Z :=
  [-1; 31; 28; 31; 30; 31; 30; 31; 31; 30; 31; 30; 31]%Z.

Definition _DAYS_BEFORE_MONTH : list Z :=
  [-1; 0; 31; 59; 90; 120; 151; 181; 212; 243; 273; 304; 334]%Z.

Definition _is_leap (y : Z) : bool :=
  (y mod 4 =? 0)%Z && (negb (y mod 100 =? 0)%Z || (y mod 400 =? 0)%Z).

Definition _days_before_year (y : Z) : Z :=
  let y := (y - 1)%Z in (y * 365 + y / 4 - y / 100 + y / 400)%Z.

Definition _days_in_month (y m : Z) : Z :=
  if (m =? 2)%Z && _is_leap y then 29%Z
  else nth (Z.to_nat m) _DAYS_IN_MONTH (-1)%Z.

Definition _days_before_month (y m : Z) : Z :=
  (nth (Z.to_nat m) _DAYS_BEFORE_MONTH (-1)
   + (if (2 <? m) && _is_leap y then 1 else 0))%Z.

Definition _ymd2ord (y m d : Z) : Z :=
  (_days_before_year y + _days_before_month y m + d)%Z.

(** [_check_date_fields] *)
Definition check_date_fields (y m d : Z) : bool :=
  (MINYEAR <=? y)%Z && (y <=? MAXYEAR)%Z &&
  (1 <=? m)%Z && (m <=? 12)%Z &&
  (1 <=? d)%Z && (d <=? _days_in_month y m)%Z.

(** [date(y, m, d)]; [None] is the [ValueError] of an impossible date. *)
Definition date_new (y m d : Z) : option date :=
  if check_date_fields y m d then Some (mkdate y m d) else None.

Definition toordinal (x : date) : Z := _ymd2ord (year x) (month x) (day x).

(** Monday is 0. *)
Definition weekday (x : date) : Z := ((toordinal x + 6) mod 7)%Z.

(** [x.replace(year=y)] builds a new date and so checks the fields again. *)
Definition replace_year (x : date) (y : Z) : option date :=
  date_new y (month x) (day x).

(** [(a - b).days] *)
Definition sub_days (a b : date) : Z := (toordinal a - toordinal b)%Z.

(** *** strftime *)

Fixpoint str_of_uint (u : Decimal.uint) : str :=
  match u with
  | Decimal.Nil => []
  | Decimal.D0 u => 48%N :: str_of_uint u
  | Decimal.D1 u => 49%N :: str_of_uint u
  | Decimal.D2 u => 50%N :: str_of_uint u
  | Decimal.D3 u => 51%N :: str_of_uint u
  | Decimal.D4 u => 52%N :: str_of_uint u
  | Decimal.D5 u => 53%N :: str_of_uint u
  | Decimal.D6 u => 54%N :: str_of_uint u
  | Decimal.D7 u => 55%N :: str_of_uint u
  | Decimal.D8 u => 56%N :: str_of_uint u
  | Decimal.D9 u => 57%N :: str_of_uint u
  end.

(** Decimal numeral of a natural number, without leading zeros. *)
Definition str_of_Z (z : Z) : str := str_of_uint (N.to_uint (Z.to_N z)).

Definition zfill (width : nat) (s : str) : str :=
  repeat 48%N (width - length s) ++ s.

(** [%d] and [%m]: two digits, zero padded. *)
Definition fmt_02 (z : Z) : str := zfill 2 (str_of_Z z).

(** [%Y].  The library reference documents four digits (0001 .. 9999);
    the digits come from the C library's strftime, and under glibc
    CPython 3.11 prints years below 1000 without leading zeros.
    [pad_year] says which of the two the platform does. *)
Definition fmt_Y (pad_year : bool) (z : Z) : str :=
  if pad_year then zfill 4 (str_of_Z z) else str_of_Z z.

(** [%A] in the C locale. *)
Definition day_name (x : date) : str :=
  of_string
    (nth (Z.to_nat (weekday x))
         ["Monday"; "Tuesday"; "Wednesday"; "Thursday"; "Friday";
          "Saturday"; "Sunday"]%string ""%string).

(** [x.strftime("%d.%m.%Y")] *)
Definition strftime_dmY (pad_year : bool) (x : date) : str :=
  fmt_02 (day x) ++ of_string "." ++ fmt_02 (month x) ++ of_string "."
  ++ fmt_Y pad_year (year x).

(** [x.strftime("%A, %d.%m.%Y")] *)
Definition strftime_AdmY (pad_year : bool) (x : date) : str :=
  day_name x ++ of_string ", " ++ strftime_dmY pad_year x.

(** *** strptime

    [_strptime] turns the format into a regular expression, one named
    group per directive, and runs [re.match] on the data. *)

Inductive regex : Type :=
  | Chr (c : char)                (* a literal character *)
  | Range (lo hi : char)          (* [lo-hi] *)
  | DecimalDigit                  (* \d on a str pattern *)
  | Cat (r1 r2 : regex)
  | Alt (r1 r2 : regex).

(** Backtracking matcher: all the ways [r] matches a prefix of [s], as
    (matched text, rest), in the order [re] tries them: the left branch
    of an alternation before the right one. *)
Fixpoint rx (r : regex) (s : str) : list (str * str) :=
  match r with
  | Chr c =>
      match s with
      | c' :: s' => if (c' =? c)%N then [([c'], s')] else []
      | [] => []
      end
  | Range lo hi =>
      match s with
      | c' :: s' => if (lo <=? c')%N && (c' <=? hi)%N then [([c'], s')] else []
      | [] => []
      end
  | DecimalDigit =>
      match s with
      | c' :: s' => if isdecimal_char c' then [([c'], s')] else []
      | [] => []
      end
  | Cat r1 r2 =>
      flat_map (fun m1 => map (fun m2 => (fst m1 ++ fst m2, snd m2))
                              (rx r2 (snd m1)))
               (rx r1 s)
  | Alt r1 r2 => rx r1 s ++ rx r2 s
  end.

Definition c0 : char := 48%N.
Definition c1 : char := 49%N.
Definition c2 : char := 50%N.
Definition c3 : char := 51%N.
Definition c9 : char := 57%N.
Definition cdot : char := 46%N.
Definition cspace : char := 32%N.

(** [%d]: 3[0-1]|[1-2]\d|0[1-9]|[1-9]| [1-9] *)
Definition re_d : regex :=
  Alt (Cat (Chr c3) (Range c0 c1))
 (Alt (Cat (Range c1 c2) DecimalDigit)
 (Alt (Cat (Chr c0) (Range c1 c9))
 (Alt (Range c1 c9)
      (Cat (Chr cspace) (Range c1 c9))))).

(** [%m]: 1[0-2]|0[1-9]|[1-9] *)
Definition re_m : regex :=
  Alt (Cat (Chr c1) (Range c0 c2))
 (Alt (Cat (Chr c0) (Range c1 c9))
      (Range c1 c9)).

(** [%Y]: \d\d\d\d *)
Definition re_Y : regex :=
  Cat DecimalDigit (Cat DecimalDigit (Cat DecimalDigit DecimalDigit)).

(** The pattern of ["%d.%m.%Y"]: (?P<d>..)\.(?P<m>..)\.(?P<Y>..).
    Each match is (d, m, Y, unmatched rest).  The pattern is compiled
    with IGNORECASE, which changes nothing for digits, dot and space. *)
Definition match_dmY (s : str) : list (str * str * str * str) :=
  flat_map (fun d =>
  flat_map (fun dot1 =>
  flat_map (fun m =>
  flat_map (fun dot2 =>
  map (fun y => (fst d, fst m, fst y, snd y))
    (rx re_Y (snd dot2)))
    (rx (Chr cdot) (snd m)))
    (rx re_m (snd dot1)))
    (rx (Chr cdot) (snd d)))
    (rx re_d s).

(** [datetime.strptime(s, "%d.%m.%Y").date()]; [None] is [ValueError]:
    no match, unconverted data after the match, or an impossible date. *)
Definition strptime_dmY (s : str) : option date :=
  match head (match_dmY s) with
  | None => None
  | Some (d, m, y, rest) =>
      match rest with
      | _ :: _ => None
      | [] =>
          match int y, int m, int d with
          | Some y, Some m, Some d => date_new y m d
          | _, _, _ => None
          end
      end
  end.

End Datetime.

Import Datetime.

(* ================================================================== *)
(** ** Birthday                                                        *)
(* ================================================================== *)

Record Birthday : Type := mkBirthday { Birthday_value : date }.

(** [Birthday.is_valid]: parses the text and, on success, stores the date
    in [self.value]; a [ValueError] of [strptime] makes it answer False. *)
Definition Birthday_is_valid (value : str) : option date := strptime_dmY value.

Definition Birthday_init (value : str) : result Birthday :=
  match Birthday_is_valid value with
  | Some d => Ok (mkBirthday d)
  | None => Raise InvalidFormat_date
  end.

(* ================================================================== *)
(** ** Record                                                          *)
(* ================================================================== *)

Record Record_t : Type := mkRecord {
  name : Name;
  phones : list Phone;
  birthday : option Birthday
}.

Definition set_phones (self : Record_t) (ps : list Phone) : Record_t :=
  mkRecord (name self) ps (birthday self).

Definition set_birthday (self : Record_t) (b : option Birthday) : Record_t :=
  mkRecord (name self) (phones self) b.

Definition Record_init (raw : str) : result Record_t :=
  match Name_init raw with
  | Ok n => Ok (mkRecord n [] None)
  | Raise e => Raise e
  end.

Definition add_phone (phone : str) (self : Record_t) : result unit * Record_t :=
  match Phone_init phone with
  | Ok p => (Ok tt, set_phones self (phones self ++ [p]))
  | Raise e => (Raise e, self)
  end.

Definition remove_phone (phone : str) (self : Record_t) : result unit * Record_t :=
  (Ok tt,
   set_phones self
     (filter (fun p => Phone_value p <> phone) (phones self))).

(** The loop of [edit_phone] from index [i] on, [todo] being what
    [enumerate(self.phones)] has still to yield. *)
Fixpoint edit_phone_from (i : nat) (todo : list Phone) (old_phone new_phone : str)
    (self : Record_t) : result unit * Record_t :=
  match todo with
  | [] => (Raise NotFound_phone, self)
  | phone :: todo' =>
      if bool_decide (Phone_value phone = old_phone) then
        match Phone_init new_phone with
        | Ok p => (Ok tt, set_phones self (<[i := p]> (phones self)))
        | Raise e => (Raise e, self)
        end
      else edit_phone_from (S i) todo' old_phone new_phone self
  end.

Definition edit_phone (old_phone new_phone : str) (self : Record_t)
    : result unit * Record_t :=
  edit_phone_from 0 (phones self) old_phone new_phone self.

(** [find_phone]: the first phone with that value; [None] is Python's None. *)
Fixpoint find_phone_in (ps : list Phone) (phone : str) : option Phone :=
  match ps with
  | [] => None
  | p :: ps' =>
      if bool_decide (Phone_value p = phone) then Some p
      else find_phone_in ps' phone
  end.

Definition find_phone (phone : str) (self : Record_t) : option Phone :=
  find_phone_in (phones self) phone.

Definition Birthday_added : str := of_string "Birthday added.".
Definition Already_have : str := of_string "Already have".

(** [add_birthday]: the [Birthday] is built, and so the text validated,
    before the record is looked at.  A [Birthday] object is always true,
    so [not self.birthday] holds exactly for None. *)
Definition add_birthday (bdate : str) (self : Record_t) : result str * Record_t :=
  match Birthday_init bdate with
  | Raise e => (Raise e, self)
  | Ok b =>
      match birthday self with
      | None => (Ok Birthday_added, set_birthday self (Some b))
      | Some _ => (Ok Already_have, self)
      end
  end.

(** [Record.__str__] *)
Definition Record_str (pad_year : bool) (self : Record_t) : str :=
  let formatted_date :=
    match birthday self with
    | Some b => strftime_dmY pad_year (Birthday_value b)
    | None => of_string "N/A"
    end in
  of_string "Contact name: " ++ Name_value (name self)
  ++ of_string ", phones: "
  ++ join (of_string "; ") (map Phone_value (phones self))
  ++ of_string ", birthday: " ++ formatted_date.

(** The operations of a record, for sequences of calls. *)
Inductive record_op : Type :=
  | OpAddPhone (raw : str)
  | OpRemovePhone (raw : str)
  | OpEditPhone (old_raw new_raw : str)
  | OpFindPhone (raw : str)
  | OpAddBirthday (raw : str)
  | OpStr.

(** The record after one call, whether it returned or raised. *)
Definition run_op (self : Record_t) (op : record_op) : Record_t :=
  match op with
  | OpAddPhone raw => snd (add_phone raw self)
  | OpRemovePhone raw => snd (remove_phone raw self)
  | OpEditPhone o n => snd (edit_phone o n self)
  | OpFindPhone _ => self
  | OpAddBirthday raw => snd (add_birthday raw self)
  | OpStr => self
  end.

Definition run_ops (ops : list record_op) (self : Record_t) : Record_t :=
  fold_left run_op ops self.

(* ================================================================== *)
(** ** AddressBook                                                     *)
(* ================================================================== *)

(** A Python [dict] with [str] keys: the items in insertion order. *)
Module Dict.
Section Ops.
Context {V : Type}.

Definition t := list (str * V).

(** [d[k] = v]: an existing key keeps its place, a new one goes last. *)
Fixpoint setitem (k : str) (v : V) (d : t) : t :=
  match d with
  | [] => [(k, v)]
  | (k', v') :: d' =>
      if bool_decide (k' = k) then (k', v) :: d'
      else (k', v') :: setitem k v d'
  end.

(** [d.get(k)] *)
Fixpoint get (k : str) (d : t) : option V :=
  match d with
  | [] => None
  | (k', v') :: d' => if bool_decide (k' = k) then Some v' else get k d'
  end.

(** [d.pop(k, None)]: the value taken out, and the dictionary left. *)
Fixpoint pop (k : str) (d : t) : option V * t :=
  match d with
  | [] => (None, [])
  | (k', v') :: d' =>
      if bool_decide (k' = k) then (Some v', d')
      else let (r, d'') := pop k d' in (r, (k', v') :: d'')
  end.

Definition keys (d : t) : list str := map fst d.
Definition values (d : t) : list V := map snd d.

(** What every dictionary satisfies: no key occurs twice. *)
Definition wf (d : t) : Prop := NoDup (keys d).
End Ops.
Arguments t : clear implicits.
End Dict.

(** One element of the list [get_upcoming_birthdays] returns:
    [{'name': .., 'birthday': ..}]. *)
Record upcoming : Type := mkUpcoming { up_name : str; up_birthday : str }.

Module AddressBook.

Definition t := Dict.t Record_t.

Definition empty : t := [].

Definition add_record (record : Record_t) (self : t) : t :=
  Dict.setitem (Name_value (name record)) record self.

Definition find (nm : str) (self : t) : option Record_t := Dict.get nm self.

(** [delete]: the entry is popped first; a [Record] object is always
    true, so the test fails exactly when [pop] gave None. *)
Definition delete (nm : str) (self : t) : result unit * t :=
  match Dict.pop nm self with
  | (Some _, d) => (Ok tt, d)
  | (None, d) => (Raise NotFound_contact, d)
  end.

(** The body of the loop of [get_upcoming_birthdays] over the records
    still to visit; [birthdays] is the list built so far. *)
Fixpoint upcoming_loop (pad_year : bool) (tdate : date)
    (todo : list Record_t) (birthdays : list upcoming)
    : result (list upcoming) :=
  match todo with
  | [] => Ok birthdays
  | record :: todo' =>
      match birthday record with
      | None => upcoming_loop pad_year tdate todo' birthdays
      | Some bdate =>
          match replace_year (Birthday_value bdate) (year tdate) with
          | None => Raise (ValueError "day is out of range for month")
          | Some bdate_this_year =>
              let days_between := sub_days bdate_this_year tdate in
              if (0 <=? days_between)%Z && (days_between <=? 7)%Z then
                upcoming_loop pad_year tdate todo'
                  (birthdays ++
                     [mkUpcoming (Name_value (name record))
                        (strftime_AdmY pad_year bdate_this_year)])
              else upcoming_loop pad_year tdate todo' birthdays
          end
      end
  end.

(** [get_upcoming_birthdays]; [tdate] is what [datetime.today().date()]
    returns when the method runs. *)
Definition get_upcoming_birthdays (pad_year : bool) (tdate : date) (self : t)
    : result (list upcoming) :=
  upcoming_loop pad_year tdate (Dict.values self) [].

(** [AddressBook.__str__] *)
Definition to_str (pad_year : bool) (self : t) : str :=
  strip (concat (map (fun r => Record_str pad_year r ++ [10%N])
                     (Dict.values self))).

(** The calls a client makes on a book.  [OnRecord nm op] is a method
    call on the object [find nm] returns: the record is shared with the
    book, which therefore sees the change. *)
Inductive op : Type :=
  | AddRecord (record : Record_t)
  | Find (nm : str)
  | Delete (nm : str)
  | Upcoming (tdate : date)
  | ToStr
  | OnRecord (nm : str) (o : record_op).

Definition run (self : t) (o : op) : t :=
  match o with
  | AddRecord r => add_record r self
  | Find _ | Upcoming _ | ToStr => self
  | Delete nm => snd (delete nm self)
  | OnRecord nm ro =>
      match find nm self with
      | Some r => Dict.setitem nm (run_op r ro) self
      | None => self
      end
  end.

(** The books a client can build from the empty one. *)
Definition reachable (self : t) : Prop :=
  exists ops : list op, self = fold_left run ops empty.

(** At most one record per name. *)
Definition unique_names (self : t) : Prop :=
  forall i j k1 r1 k2 r2,
    self !! i = Some (k1, r1) -> self !! j = Some (k2, r2) ->
    Name_value (name r1) = Name_value (name r2) -> i = j.

End AddressBook.

(* ================================================================== *)
(** ** The words of the specification                                  *)
(* ================================================================== *)

(** "Whitespace-only" (the empty string included). *)
Definition all_whitespace (s : str) : bool := forallb isspace s.

(** "A string of exactly 10 ASCII digits". *)
Definition ten_ascii_digits (s : str) : bool :=
  (length s =? 10)%nat && forallb is_ascii_digit s.

(** "The first phone equal to [raw] sits at index [i]". *)
Definition first_phone_at (ps : list Phone) (raw : str) (i : nat) : Prop :=
  (exists p, ps !! i = Some p /\ Phone_value p = raw) /\
  (forall j q, (j < i)%nat -> ps !! j = Some q -> Phone_value q <> raw).

(** "No phone equals [raw]". *)
Definition no_phone (ps : list Phone) (raw : str) : Prop :=
  Forall (fun p => Phone_value p <> raw) ps.

Definition rec0 : Record_t :=
  mkRecord (mkName (of_string "Alice")) [mkPhone (of_string "1234567890")] None.


Definition rec1 : Record_t :=
  mkRecord (mkName (of_string "Alice")) [] (Some (mkBirthday (mkdate 1990 6 5))).

(** Every entry of a book sits under the name of its record. *)
Definition keyed_by_name (self : AddressBook.t) : Prop :=
  Forall (fun kv => Name_value (name (snd kv)) = fst kv) self.

Definition book0 : AddressBook.t := AddressBook.add_record rec0 AddressBook.empty.

(** The birthday of [r] moved to the year of [tdate], when [r] has a
    birthday and that day exists in that year. *)
Definition this_year_birthday (tdate : date) (r : Record_t) : option date :=
  match birthday r with
  | Some b => replace_year (Birthday_value b) (year tdate)
  | None => None
  end.

(** "0 <= (thisYearBirthday - today) <= 7 whole days". *)
Definition in_window (tdate : date) (r : Record_t) : bool :=
  match this_year_birthday tdate r with
  | Some d => (0 <=? sub_days d tdate)%Z && (sub_days d tdate <=? 7)%Z
  | None => false
  end.

(** The element of the result that stands for [r]. *)
Definition upcoming_of (pad_year : bool) (tdate : date) (r : Record_t) : upcoming :=
  mkUpcoming (Name_value (name r))
    (match this_year_birthday tdate r with
     | Some d => strftime_AdmY pad_year d
     | None => []
     end).

(** No birthday of the book falls on a day missing from the year of [tdate]. *)
Definition replaceable (tdate : date) (rs : list Record_t) : Prop :=
  Forall (fun r => birthday r = None \/ this_year_birthday tdate r <> None) rs.

Definition new_record (nm : string) (bdate : string) : Record_t :=
  snd (add_birthday (of_string bdate) (mkRecord (mkName (of_string nm)) [] None)).

Definition book_june : AddressBook.t :=
  AddressBook.add_record (new_record "Carol" "30.05.1990")
    (AddressBook.add_record (new_record "Bob" "10.06.1990")
       (AddressBook.add_record (new_record "Ann" "05.06.1990")
          AddressBook.empty)).

Definition book_leap : AddressBook.t :=
  AddressBook.add_record (new_record "Ann" "05.06.1990")
    (AddressBook.add_record (new_record "Leo" "29.02.2000")
       AddressBook.empty).

(** The texts a regular expression matches in full. *)
Fixpoint lang (r : regex) (m : str) : Prop :=
  match r with
  | Chr c => m = [c]
  | Range lo hi => exists c, m = [c] /\ (lo <= c <= hi)%N
  | DecimalDigit => exists c, m = [c] /\ isdecimal_char c = true
  | Cat r1 r2 => exists m1 m2, m = m1 ++ m2 /\ lang r1 m1 /\ lang r2 m2
  | Alt r1 r2 => lang r1 m \/ lang r2 m
  end.

(** [s] reads day.month.year as the parser takes it: a day 1..31 of one
    or two digits (or a space and a digit), a month 1..12 of one or two
    digits, a year of four decimal digits, and [x] has these numbers. *)
Definition lenient_text (s : str) (x : date) : Prop :=
  exists d m y,
    s = d ++ cdot :: m ++ cdot :: y /\
    lang re_d d /\ lang re_m m /\ lang re_Y y /\
    int y = Some (year x) /\ int m = Some (month x) /\ int d = Some (day x).

(** The number a run of ASCII digits writes. *)
Definition num (ds : str) : Z :=
  fold_left (fun acc c => (10 * acc + Z.of_N (c - 48))%Z) ds 0%Z.

(** The date the ten characters DD.MM.YYYY denote. *)
Definition canonical_date (s : str) : date :=
  mkdate (num (firstn 4 (skipn 6 s))) (num (firstn 2 (skipn 3 s)))
         (num (firstn 2 s)).

(** "A valid DD.MM.YYYY date": two ASCII digits, a dot, two ASCII digits,
    a dot, four ASCII digits, naming a day that exists. *)
Definition is_canonical (s : str) : bool :=
  (length s =? 10)%nat &&
  forallb is_ascii_digit (firstn 2 s) &&
  forallb is_ascii_digit (firstn 2 (skipn 3 s)) &&
  forallb is_ascii_digit (skipn 6 s) &&
  forallb (N.eqb cdot) (firstn 1 (skipn 2 s)) &&
  forallb (N.eqb cdot) (firstn 1 (skipn 5 s)) &&
  check_date_fields (year (canonical_date s)) (month (canonical_date s))
                    (day (canonical_date s)).

Definition ascii_digits : list N := [48; 49; 50; 51; 52; 53; 54; 55; 56; 57]%N.

(* ================================================================== *)
(** ** The command layer                                               *)
(* ================================================================== *)

(** [s.split()] with no argument: the maximal runs of characters that are
    not whitespace.  [word] is the run being read. *)
Fixpoint split_from (word : str) (s : str) : list str :=
  match s with
  | [] => match word with [] => [] | _ => [word] end
  | c :: s' =>
      if isspace c then
        match word with
        | [] => split_from [] s'
        | _ => word :: split_from [] s'
        end
      else split_from (word ++ [c]) s'
  end.

Definition split (s : str) : list str := split_from [] s.

(** The exceptions that reach the command layer: those of the core, and
    the ones the interpreter raises for a bad index or attribute. *)
Inductive cexn : Type :=
  | Core (e : exn)
  | KeyError (msg : string)
  | IndexError (msg : string)
  | AttributeError (msg : string)
  | TypeError (msg : string).

(** What a command hands back: a text, a record ([show_phone] returns the
    object itself) or a tuple of texts ([parse_input]). *)
Inductive value : Type :=
  | VStr (s : str)
  | VRecord (r : Record_t)
  | VTuple (items : list str).

(** A call that returned or raised. *)
Inductive cresult (A : Type) : Type :=
  | CReturn (a : A)
  | CRaise (e : cexn).

Arguments CReturn {A} a.
Arguments CRaise {A} e.

(** [input_error]: ValueError, KeyError and IndexError become texts, any
    other exception goes on to the caller. *)
Definition input_error (r : cresult value) : cresult value :=
  match r with
  | CReturn v => CReturn v
  | CRaise (Core (ValueError ve)) =>
      CReturn (VStr (of_string ("Value error: " ++ ve)))
  | CRaise (KeyError _) => CReturn (VStr (of_string "No such name found"))
  | CRaise (IndexError _) => CReturn (VStr (of_string "Not found"))
  | CRaise e => CRaise e
  end.

(** [a, b = args] *)
Definition unpack2 (args : list str) : cresult (str * str) :=
  match args with
  | [a; b] => CReturn (a, b)
  | [] => CRaise (Core (ValueError
            "not enough values to unpack (expected 2, got 0)"))
  | [_] => CRaise (Core (ValueError
            "not enough values to unpack (expected 2, got 1)"))
  | _ => CRaise (Core (ValueError "too many values to unpack (expected 2)"))
  end.

(** [args[0]] *)
Definition index0 {A} (l : list A) : cresult A :=
  match l with
  | x :: _ => CReturn x
  | [] => CRaise (IndexError "list index out of range")
  end.

(** [nm in book] *)
Definition contains (nm : str) (book : AddressBook.t) : bool :=
  match Dict.get nm book with Some _ => true | None => false end.

(** The commands, before [input_error] is applied.  Each returns what the
    call gave and the book after it; a record found in the book is the
    book's own object, so the book holds its state after the call. *)
Definition add_contact_body (args : list str) (book : AddressBook.t)
    : cresult value * AddressBook.t :=
  match unpack2 args with
  | CRaise e => (CRaise e, book)
  | CReturn (nm, phone) =>
      if negb (contains nm book) then
        match Record_init nm with
        | Raise e => (CRaise (Core e), book)
        | Ok record =>
            match add_phone phone record with
            | (Raise e, _) => (CRaise (Core e), book)
            | (Ok _, record') =>
                (CReturn (VStr (of_string "Contact added.")),
                 AddressBook.add_record record' book)
            end
        end
      else (CReturn (VStr (of_string "Already have")), book)
  end.

Definition show_phone_body (args : list str) (book : AddressBook.t)
    : cresult value * AddressBook.t :=
  match index0 args with
  | CRaise e => (CRaise e, book)
  | CReturn nm =>
      match AddressBook.find nm book with
      | Some record => (CReturn (VRecord record), book)
      | None => (CReturn (VStr (of_string "Not found")), book)
      end
  end.

Definition change_contact_body (args : list str) (book : AddressBook.t)
    : cresult value * AddressBook.t :=
  match unpack2 args with
  | CRaise e => (CRaise e, book)
  | CReturn (nm, phone) =>
      match AddressBook.find nm book with
      | Some record =>
          match index0 (phones record) with
          | CRaise e => (CRaise e, book)
          | CReturn p0 =>
              let (res, record') := edit_phone (Phone_value p0) phone record in
              let book' := Dict.setitem nm record' book in
              match res with
              | Raise e => (CRaise (Core e), book')
              | Ok _ => (CReturn (VStr (of_string "Contact changed.")), book')
              end
          end
      | None => (CReturn (VStr (of_string "Not found")), book)
      end
  end.

(** A [UserDict] is true when it is not empty. *)
Definition all_contact_body (pad_year : bool) (book : AddressBook.t)
    : cresult value * AddressBook.t :=
  match book with
  | [] => (CReturn (VStr (of_string "Not found")), book)
  | _ => (CReturn (VStr (AddressBook.to_str pad_year book)), book)
  end.

Definition add_birthday_body (args : list str) (book : AddressBook.t)
    : cresult value * AddressBook.t :=
  match unpack2 args with
  | CRaise e => (CRaise e, book)
  | CReturn (nm, bdate) =>
      match AddressBook.find nm book with
      | Some record =>
          let (res, record') := add_birthday bdate record in
          let book' := Dict.setitem nm record' book in
          match res with
          | Raise e => (CRaise (Core e), book')
          | Ok status => (CReturn (VStr status), book')
          end
      | None => (CReturn (VStr (of_string "Contact not found")), book)
      end
  end.

(** [record.birthday.value] on a record whose birthday is None raises
    AttributeError. *)
Definition show_birthday_body (pad_year : bool) (args : list str)
    (book : AddressBook.t) : cresult value * AddressBook.t :=
  match index0 args with
  | CRaise e => (CRaise e, book)
  | CReturn nm =>
      match AddressBook.find nm book with
      | Some record =>
          match birthday record with
          | Some b =>
              (CReturn (VStr (strftime_dmY pad_year (Birthday_value b))), book)
          | None =>
              (CRaise (AttributeError
                 "'NoneType' object has no attribute 'value'"), book)
          end
      | None => (CReturn (VStr (of_string "Not found")), book)
      end
  end.

Definition birthday_line (info : upcoming) : str :=
  up_name info ++ of_string "'s birthday is on " ++ up_birthday info
  ++ of_string "." ++ [10%N].

Definition birthdays_body (pad_year : bool) (tdate : date)
    (book : AddressBook.t) : cresult value * AddressBook.t :=
  match AddressBook.get_upcoming_birthdays pad_year tdate book with
  | Raise e => (CRaise (Core e), book)
  | Ok [] => (CReturn (VStr (of_string "Not upcoming birthdays")), book)
  | Ok infos => (CReturn (VStr (strip (concat (map birthday_line infos)))), book)
  end.

(** [parse_input]: [cmd, *args = user_input.split()], the command word
    stripped and lower-cased.  [lower] is [str.lower]. *)
Definition parse_input_body (lower : list N -> list N) (user_input : str)
    : cresult value :=
  match split user_input with
  | [] => CRaise (Core (ValueError
            "not enough values to unpack (expected at least 1, got 0)"))
  | cmd :: args => CReturn (VTuple (lower (strip cmd) :: args))
  end.

(** The decorated functions. *)
Definition decorated (r : cresult value * AddressBook.t)
    : cresult value * AddressBook.t :=
  (input_error (fst r), snd r).

Definition add_contact args book := decorated (add_contact_body args book).
Definition show_phone args book := decorated (show_phone_body args book).
Definition change_contact args book := decorated (change_contact_body args book).
Definition all_contact pad_year book := decorated (all_contact_body pad_year book).
Definition add_birthday_cmd args book := decorated (add_birthday_body args book).
Definition show_birthday pad_year args book :=
  decorated (show_birthday_body pad_year args book).
Definition birthdays pad_year tdate book :=
  decorated (birthdays_body pad_year tdate book).
Definition parse_input lower user_input :=
  input_error (parse_input_body lower user_input).

(** A text handed back. *)
Definition text (s : string) : cresult value := CReturn (VStr (of_string s)).

(** The commands that work on the book, for sequences of them. *)
Inductive command : Type :=
  | CmdAdd (args : list str)
  | CmdChange (args : list str)
  | CmdPhone (args : list str)
  | CmdAll
  | CmdAddBirthday (args : list str)
  | CmdShowBirthday (args : list str)
  | CmdBirthdays (tdate : date).

Definition run_command (pad_year : bool) (c : command) (book : AddressBook.t)
    : cresult value * AddressBook.t :=
  match c with
  | CmdAdd args => add_contact args book
  | CmdChange args => change_contact args book
  | CmdPhone args => show_phone args book
  | CmdAll => all_contact pad_year book
  | CmdAddBirthday args => add_birthday_cmd args book
  | CmdShowBirthday args => show_birthday pad_year args book
  | CmdBirthdays tdate => birthdays pad_year tdate book
  end.

(** The book after a sequence of commands (a command that lets an
    exception through still leaves the book as it then is). *)
Definition run_commands (pad_year : bool) (cs : list command)
    (book : AddressBook.t) : AddressBook.t :=
  fold_left (fun b c => snd (run_command pad_year c b)) cs book.

(* ------------------------------------------------------------------ *)
(** *** The words of the properties                                    *)
(* ------------------------------------------------------------------ *)

(** How many phones of the list have the value [raw]. *)
Definition occurrences (raw : str) (ps : list Phone) : nat :=
  length (List.filter (fun p => bool_decide (Phone_value p = raw)) ps).

Definition valid_date (x : date) : Prop :=
  check_date_fields (year x) (month x) (day x) = true.

(** What the constructors guarantee of a record: a name that is not
    blank, phones of ten digits, a birthday that is a real date. *)
Definition record_ok (r : Record_t) : Prop :=
  strip (Name_value (name r)) <> [] /\
  Forall (fun p => Phone_is_valid p = true) (phones r) /\
  (forall b, birthday r = Some b -> valid_date (Birthday_value b)).


(** A text has no whitespace at either end (and is not empty). *)
Definition tight (t : str) : Prop :=
  exists a b, head t = Some a /\ head (rev t) = Some b /\
              isspace a = false /\ isspace b = false.

(** One line of the [birthdays] report, without its newline. *)
Definition birthday_text (info : upcoming) : str :=
  up_name info ++ of_string "'s birthday is on " ++ up_birthday info
  ++ of_string ".".

(** The answers that tell of a change of the book. *)
Definition success_texts : list (cresult value) :=
  [text "Contact added."; text "Contact changed."; text "Birthday added."].

(** What holds of a book filled through the commands. *)
Definition command_book_ok (book : AddressBook.t) : Prop :=
  Dict.wf book /\ keyed_by_name book /\
  Forall (fun kv => record_ok (snd kv) /\ length (phones (snd kv)) = 1%nat) book.

(* ------------------------------------------------------------------ *)
(** *** One turn of the loop of [main]                                 *)
(* ------------------------------------------------------------------ *)

(** What a turn does to the outside: it prints an object, or hands the
    book to [save_data]. *)
Inductive event : Type :=
  | Print (v : value)
  | SaveData (book : AddressBook.t).

(** How a turn ends: the loop goes on, it is left by [break], or an
    exception leaves [main]. *)
Inductive status : Type :=
  | Continue
  | Stop
  | Crash (e : cexn).

(** [command, *args = v]: a tuple gives its items, a text its characters. *)
Definition unpack_star (v : value) : cresult (str * list str) :=
  match v with
  | VTuple (c :: a) => CReturn (c, a)
  | VStr (c :: rest) => CReturn ([c], map (fun x => [x]) rest)
  | VTuple [] | VStr [] =>
      CRaise (Core (ValueError
        "not enough values to unpack (expected at least 1, got 0)"))
  | VRecord _ => CRaise (TypeError "cannot unpack non-iterable Record object")
  end.

Definition list_command : list (string * string) :=
  [("hello", "Display welcome message.");
   ("add", "[name] [phone]: Add a new contact.");
   ("change", "[name] [phone]: Add a new contact.");
   ("phone", "[name]: Display the phone number of a contact.");
   ("all", "Display all contacts.");
   ("add-birthday", "[name] [date]: Add birthday to a contact.");
   ("show-birthday", "[name]: Show birthday of a contact.");
   ("birthdays", "Show upcoming birthdays.");
   ("exit or close", "Show upcoming birthdays.")]%string.

(** [ConsoleInterface.all_command] *)
Definition all_command (cmds : list (string * string)) : list event :=
  map (fun kv =>
         Print (VStr (str_of_Z (Z.of_nat (fst kv)) ++ of_string ": "
                      ++ of_string (fst (snd kv)) ++ of_string " -> "
                      ++ of_string (snd (snd kv)))))
      (combine (seq 0 (length cmds)) cmds).

(** [display_message] after a decorated command. *)
Definition display_message (r : cresult value * AddressBook.t)
    : list event * AddressBook.t * status :=
  match fst r with
  | CReturn v => ([Print v], snd r, Continue)
  | CRaise e => ([], snd r, Crash e)
  end.

(** [display_contact]: an empty text is shown as "Not found". *)
Definition display_contact (r : cresult value * AddressBook.t)
    : list event * AddressBook.t * status :=
  match fst r with
  | CReturn (VStr []) => ([Print (VStr (of_string "Not found"))], snd r, Continue)
  | CReturn v => ([Print v], snd r, Continue)
  | CRaise e => ([], snd r, Crash e)
  end.

Definition is_word (w : string) (command : str) : bool :=
  bool_decide (command = of_string w).

(** The body of [while True] for the line [user_input]; [tdate] is the
    date of the day. *)
Definition main_step (lower : list N -> list N) (pad_year : bool) (tdate : date)
    (user_input : str) (book : AddressBook.t)
    : list event * AddressBook.t * status :=
  match parse_input lower user_input with
  | CRaise e => ([], book, Crash e)
  | CReturn v =>
      match unpack_star v with
      | CRaise e => ([], book, Crash e)
      | CReturn (command, args) =>
          if is_word "close" command || is_word "exit" command then
            ([SaveData book; Print (VStr (of_string "Good bye!"))], book, Stop)
          else if is_word "help" command then
            (all_command list_command, book, Continue)
          else if is_word "hello" command then
            ([Print (VStr (of_string "How can I help you?"))], book, Continue)
          else if is_word "add" command then
            display_message (add_contact args book)
          else if is_word "change" command then
            display_message (change_contact args book)
          else if is_word "phone" command then
            display_message (show_phone args book)
          else if is_word "all" command then
            display_contact (all_contact pad_year book)
          else if is_word "add-birthday" command then
            display_message (add_birthday_cmd args book)
          else if is_word "show-birthday" command then
            display_message (show_birthday pad_year args book)
          else if is_word "birthdays" command then
            display_message (birthdays pad_year tdate book)
          else
            ([Print (VStr (of_string "Invalid command."))], book, Continue)
      end
  end.

(** The command words of [main]. *)
Definition command_words : list string :=
  ["close"; "exit"; "help"; "hello"; "add"; "change"; "phone"; "all";
   "add-birthday"; "show-birthday"; "birthdays"]%string.
(* ================================================================== *)
(** ** Characters                                                      *)
(* ================================================================== *)

Lemma ascii_digit_cases (c : char) :
  is_ascii_digit c = true ->
  (c = 48 \/ c = 49 \/ c = 50 \/ c = 51 \/ c = 52 \/
   c = 53 \/ c = 54 \/ c = 55 \/ c = 56 \/ c = 57)%N.
Proof.
  unfold is_ascii_digit. rewrite andb_true_iff, !N.leb_le. lia.
Qed.

Ltac ascii_digit_split H :=
  apply ascii_digit_cases in H; destruct_or! H; subst.

Lemma ascii_digit_isdecimal c : is_ascii_digit c = true -> isdecimal_char c = true.
Proof. intros H. ascii_digit_split H; reflexivity. Qed.

Lemma ascii_digit_isdigit c : is_ascii_digit c = true -> isdigit_char c = true.
Proof.
  intros H. unfold isdigit_char. now rewrite ascii_digit_isdecimal.
Qed.

Lemma ascii_digit_not_space c : is_ascii_digit c = true -> isspace c = false.
Proof. intros H. ascii_digit_split H; reflexivity. Qed.

Lemma ascii_digit_value c :
  is_ascii_digit c = true -> decimal_value c = Some (Z.of_N (c - 48)).
Proof. intros H. ascii_digit_split H; reflexivity. Qed.

(* ================================================================== *)
(** ** strip                                                           *)
(* ================================================================== *)

Lemma lstrip_nil_iff s : lstrip s = [] <-> all_whitespace s = true.
Proof.
  unfold all_whitespace. induction s as [|c s IH]; simpl; [tauto|].
  destruct (isspace c); simpl; [exact IH|]. split; discriminate.
Qed.

Lemma all_whitespace_lstrip s : all_whitespace (lstrip s) = all_whitespace s.
Proof.
  unfold all_whitespace. induction s as [|c s IH]; simpl; [reflexivity|].
  destruct (isspace c) eqn:E; simpl; [exact IH|]. now rewrite E.
Qed.

Lemma all_whitespace_rev s : all_whitespace (rev s) = all_whitespace s.
Proof.
  unfold all_whitespace. induction s as [|c s IH]; simpl; [reflexivity|].
  rewrite forallb_app, IH. simpl. rewrite andb_true_r. apply andb_comm.
Qed.

Lemma strip_nil_iff s : strip s = [] <-> all_whitespace s = true.
Proof.
  unfold strip, rstrip.
  rewrite <- (all_whitespace_lstrip s), <- (all_whitespace_rev (lstrip s)).
  rewrite <- lstrip_nil_iff. split; intros H.
  - apply (f_equal (@rev N)) in H. now rewrite rev_involutive in H.
  - now rewrite H.
Qed.

Lemma truthy_false_iff s : truthy s = false <-> s = [].
Proof. destruct s; simpl; split; congruence. Qed.

(* ================================================================== *)
(** ** Name                                                            *)
(* ================================================================== *)

Lemma Name_init_cases s :
  (strip s = [] /\ Name_init s = Raise InvalidFormat_name) \/
  (strip s <> [] /\ Name_init s = Ok (mkName s)).
Proof.
  unfold Name_init, Name_is_valid. simpl.
  destruct (strip s) eqn:E; simpl; [left|right]; split; congruence.
Qed.

(** C6, as the code has it.  [Name] construction fails with InvalidFormat
    exactly when the stripped input is empty, so for every empty or
    whitespace-only input; a constructed [Name] holds the input string
    unchanged, and that string is neither empty nor whitespace-only and
    strips to a non-empty string.  (Surrounding whitespace is kept.) *)
Theorem C6_name_validation (s : str) :
  (Name_init s = Raise InvalidFormat_name <-> strip s = []) /\
  (all_whitespace s = true -> Name_init s = Raise InvalidFormat_name) /\
  (forall n, Name_init s = Ok n ->
     Name_value n = s /\ Name_value n <> [] /\
     all_whitespace (Name_value n) = false /\ strip (Name_value n) <> []).
Proof.
  destruct (Name_init_cases s) as [[E ->]|[E ->]].
  - split; [tauto|]. split; [reflexivity|]. discriminate.
  - split; [split; [discriminate|tauto]|].
    split.
    + intros W. apply strip_nil_iff in W. contradiction.
    + intros n [= <-]. simpl. split; [reflexivity|].
      split; [intros ->; now apply E|].
      split; [|exact E].
      destruct (all_whitespace s) eqn:W; [|reflexivity].
      apply strip_nil_iff in W. contradiction.
Qed.

Lemma C6_name_validation_witness :
  Name_init (of_string "   ") = Raise InvalidFormat_name /\
  Name_value (mkName (of_string " Al ")) = of_string " Al ".
Proof.
  split.
  - apply (proj1 (proj2 (C6_name_validation (of_string "   ")))). reflexivity.
  - apply (proj2 (proj2 (C6_name_validation (of_string " Al ")))). reflexivity.
Defined.

(** C6 as stated fails: a constructed [Name] can carry surrounding
    whitespace, the stored value is not the stripped one. *)
Lemma C6_counterexample :
  exists n, Name_init (of_string " Al ") = Ok n /\
            strip (Name_value n) <> Name_value n /\
            hd_error (Name_value n) = Some 32%N.
Proof.
  exists (mkName (of_string " Al ")). split; [reflexivity|].
  split; [|reflexivity]. vm_compute. discriminate.
Qed.

(* ================================================================== *)
(** ** Phone                                                           *)
(* ================================================================== *)

Lemma isdigit_iff s :
  isdigit s = true <-> s <> [] /\ Forall (fun c => isdigit_char c = true) s.
Proof.
  destruct s as [|c s].
  - simpl. split; [discriminate|]. intros [H _]. congruence.
  - unfold isdigit. rewrite forallb_forall, List.Forall_forall.
    split; [intros H; split; [discriminate|exact H]|tauto].
Qed.

Lemma Phone_init_cases s :
  (Phone_is_valid (mkPhone s) = true /\ Phone_init s = Ok (mkPhone s)) \/
  (Phone_is_valid (mkPhone s) = false /\ Phone_init s = Raise InvalidFormat_phone).
Proof.
  unfold Phone_init. destruct (Phone_is_valid (mkPhone s)); simpl; auto.
Qed.

Lemma Phone_is_valid_iff s :
  Phone_is_valid (mkPhone s) = true <->
  length s = 10%nat /\ Forall (fun c => isdigit_char c = true) s.
Proof.
  unfold Phone_is_valid. simpl.
  rewrite andb_true_iff, Nat.eqb_eq, isdigit_iff.
  split; [tauto|]. intros [L F]. repeat split; auto.
  intros ->. discriminate.
Qed.

(** C4, as the code has it.  [Phone] construction succeeds if and only if
    the string has exactly 10 characters and each of them is a digit in
    the sense of [str.isdigit] (the ASCII digits, and the other Unicode
    digits as well); it fails with InvalidFormat otherwise; and a string
    of exactly 10 ASCII digits is accepted and rendered back unchanged. *)
Theorem C4_phone_validation (s : str) :
  (Phone_init s = Ok (mkPhone s) <->
     length s = 10%nat /\ Forall (fun c => isdigit_char c = true) s) /\
  (Phone_init s = Raise InvalidFormat_phone <->
     ~ (length s = 10%nat /\ Forall (fun c => isdigit_char c = true) s)) /\
  (ten_ascii_digits s = true ->
     exists p, Phone_init s = Ok p /\ Phone_str p = s).
Proof.
  rewrite <- Phone_is_valid_iff.
  destruct (Phone_init_cases s) as [[V ->]|[V ->]]; rewrite V.
  - split; [tauto|]. split; [split; [discriminate|congruence]|].
    intros _. now exists (mkPhone s).
  - split; [split; [discriminate|discriminate]|].
    split; [split; [discriminate|reflexivity]|].
    intros T. exfalso.
    unfold ten_ascii_digits in T. apply andb_true_iff in T as [L D].
    apply Nat.eqb_eq in L. rewrite forallb_forall in D.
    assert (Phone_is_valid (mkPhone s) = true) as V'; [|congruence].
    apply Phone_is_valid_iff. split; [exact L|].
    apply List.Forall_forall. intros c Hc. apply ascii_digit_isdigit. auto.
Qed.

Lemma C4_phone_validation_witness :
  exists p, Phone_init (of_string "1234567890") = Ok p /\
            Phone_str p = of_string "1234567890".
Proof.
  apply (proj2 (proj2 (C4_phone_validation (of_string "1234567890")))).
  reflexivity.
Defined.

(** C4 as stated fails: ten superscript twos (U+00B2) are no ASCII digits,
    yet they make a [Phone]. *)
Lemma C4_counterexample :
  Phone_init (repeat 0xb2%N 10) = Ok (mkPhone (repeat 0xb2%N 10)) /\
  forallb is_ascii_digit (repeat 0xb2%N 10) = false /\
  forallb isdecimal_char (repeat 0xb2%N 10) = false.
Proof. repeat split. Qed.

(* ================================================================== *)
(** ** Record: phones                                                  *)
(* ================================================================== *)

Lemma find_phone_in_None ps raw :
  find_phone_in ps raw = None <-> no_phone ps raw.
Proof.
  unfold no_phone. induction ps as [|p ps IH]; simpl.
  - split; [constructor|reflexivity].
  - case_bool_decide as E.
    + split; [discriminate|]. intros H. inversion H. contradiction.
    + rewrite IH. split; [now constructor|]. intros H. now inversion H.
Qed.

Lemma find_phone_in_Some ps raw p :
  find_phone_in ps raw = Some p -> In p ps /\ Phone_value p = raw.
Proof.
  induction ps as [|q ps IH]; simpl; [discriminate|].
  case_bool_decide as E.
  - intros [= <-]. auto.
  - intros H. destruct (IH H). auto.
Qed.

Lemma edit_phone_from_not_found (pre : list Phone) todo old_phone new_phone self :
  no_phone todo old_phone ->
  edit_phone_from (length pre) todo old_phone new_phone self
  = (Raise NotFound_phone, self).
Proof.
  revert pre. induction todo as [|p todo IH]; intros pre H; simpl; [reflexivity|].
  inversion H as [|? ? Hp Ht]; subst.
  rewrite bool_decide_eq_false_2 by exact Hp.
  specialize (IH (pre ++ [p]) Ht).
  rewrite length_app in IH. simpl in IH.
  now replace (S (length pre)) with (length pre + 1)%nat by lia.
Qed.

Lemma edit_phone_from_found (pre : list Phone) todo k old_phone new_phone self :
  first_phone_at todo old_phone k ->
  edit_phone_from (length pre) todo old_phone new_phone self
  = match Phone_init new_phone with
    | Ok p => (Ok tt, set_phones self (<[(length pre + k)%nat := p]> (phones self)))
    | Raise e => (Raise e, self)
    end.
Proof.
  revert pre k. induction todo as [|p todo IH]; intros pre k [[q [Hq Hv]] Hmin].
  - rewrite lookup_nil in Hq. discriminate.
  - simpl. destruct k as [|k].
    + simpl in Hq. injection Hq as ->.
      rewrite bool_decide_eq_true_2 by exact Hv.
      now rewrite Nat.add_0_r.
    + rewrite bool_decide_eq_false_2 by (apply (Hmin 0%nat p); [lia|reflexivity]).
      specialize (IH (pre ++ [p]) k).
      rewrite length_app in IH. simpl in IH.
      replace (length pre + S k)%nat with (length pre + 1 + k)%nat by lia.
      replace (S (length pre)) with (length pre + 1)%nat by lia.
      apply IH. split; [exists q; auto|].
      intros j r Hj Hr. apply (Hmin (S j) r); [lia|exact Hr].
Qed.

Lemma edit_phone_not_found old_phone new_phone self :
  no_phone (phones self) old_phone ->
  edit_phone old_phone new_phone self = (Raise NotFound_phone, self).
Proof. apply (edit_phone_from_not_found (@nil Phone)). Qed.

Lemma edit_phone_found k old_phone new_phone self :
  first_phone_at (phones self) old_phone k ->
  edit_phone old_phone new_phone self
  = match Phone_init new_phone with
    | Ok p => (Ok tt, set_phones self (<[k := p]> (phones self)))
    | Raise e => (Raise e, self)
    end.
Proof. apply (edit_phone_from_found (@nil Phone)). Qed.

(** Some phone equals [raw] exactly when a first such phone exists. *)
Lemma first_phone_exists ps raw :
  In raw (map Phone_value ps) -> exists k, first_phone_at ps raw k.
Proof.
  induction ps as [|p ps IH]; simpl; [tauto|].
  intros H. destruct (decide (Phone_value p = raw)) as [E|E].
  - exists 0%nat. split; [exists p; auto|]. intros j q Hj. lia.
  - destruct H as [H|H]; [contradiction|].
    destruct (IH H) as [k [[q [Hq Hv]] Hmin]].
    exists (S k). split; [exists q; auto|].
    intros [|j] r Hj Hr; simpl in Hr.
    + now injection Hr as <-.
    + apply (Hmin j r); [lia|exact Hr].
Qed.

(** C3.  [edit_phone old new] fails with NotFound when no phone equals
    [old]; when the first phone equal to [old] is at index [k], it fails
    with InvalidFormat if [new] is malformed and otherwise puts the
    validated [new] at index [k], the other entries staying in place.  On
    phones ["1234567890"], editing it to "0987654321" succeeds; afterwards
    the old number is absent and the new one present. *)
Theorem C3_edit_phone (self : Record_t) (old_phone new_phone : str) :
  (no_phone (phones self) old_phone ->
     edit_phone old_phone new_phone self = (Raise NotFound_phone, self)) /\
  (forall k, first_phone_at (phones self) old_phone k ->
     (Phone_is_valid (mkPhone new_phone) = false ->
        fst (edit_phone old_phone new_phone self) = Raise InvalidFormat_phone) /\
     (Phone_is_valid (mkPhone new_phone) = true ->
        edit_phone old_phone new_phone self
        = (Ok tt, set_phones self (<[k := mkPhone new_phone]> (phones self))))) /\
  (let r := snd (edit_phone (of_string "1234567890") (of_string "0987654321") rec0) in
   fst (edit_phone (of_string "1234567890") (of_string "0987654321") rec0) = Ok tt /\
   find_phone (of_string "1234567890") r = None /\
   find_phone (of_string "0987654321") r = Some (mkPhone (of_string "0987654321"))).
Proof.
  split; [apply edit_phone_not_found|].
  split; [|vm_compute; auto].
  intros k Hk. rewrite (edit_phone_found k) by exact Hk.
  destruct (Phone_init_cases new_phone) as [[V ->]|[V ->]]; rewrite V;
    split; intros; (discriminate || reflexivity).
Qed.

Lemma C3_edit_phone_witness :
  edit_phone (of_string "5550001111") (of_string "12") rec0
    = (Raise NotFound_phone, rec0) /\
  fst (edit_phone (of_string "1234567890") (of_string "12") rec0)
    = Raise InvalidFormat_phone /\
  edit_phone (of_string "1234567890") (of_string "0987654321") rec0
    = (Ok tt, set_phones rec0 [mkPhone (of_string "0987654321")]).
Proof.
  assert (first_phone_at (phones rec0) (of_string "1234567890") 0) as F.
  { split; [eexists; split; reflexivity|]. intros j q Hj. lia. }
  split; [|split].
  - apply (proj1 (C3_edit_phone rec0 (of_string "5550001111") (of_string "12"))).
    repeat constructor. vm_compute. discriminate.
  - apply (proj1 (proj2 (C3_edit_phone rec0 (of_string "1234567890")
                           (of_string "12"))) 0%nat F).
    reflexivity.
  - apply (proj1 (proj2 (C3_edit_phone rec0 (of_string "1234567890")
                           (of_string "0987654321"))) 0%nat F).
    reflexivity.
Defined.

(** C10.  When some phone of the record equals [old] and [new] is
    malformed, [edit_phone] raises InvalidFormat and the record, its phone
    list in particular, is what it was before the call. *)
Theorem C10_edit_phone_atomic (self : Record_t) (old_phone new_phone : str) :
  In old_phone (map Phone_value (phones self)) ->
  Phone_is_valid (mkPhone new_phone) = false ->
  fst (edit_phone old_phone new_phone self) = Raise InvalidFormat_phone /\
  phones (snd (edit_phone old_phone new_phone self)) = phones self /\
  snd (edit_phone old_phone new_phone self) = self.
Proof.
  intros Hin V. destruct (first_phone_exists _ _ Hin) as [k Hk].
  rewrite (edit_phone_found k) by exact Hk.
  destruct (Phone_init_cases new_phone) as [[V' _]|[_ ->]]; [congruence|].
  auto.
Qed.

Lemma C10_edit_phone_atomic_witness :
  fst (edit_phone (of_string "1234567890") (of_string "12ab") rec0)
    = Raise InvalidFormat_phone /\
  phones (snd (edit_phone (of_string "1234567890") (of_string "12ab") rec0))
    = phones rec0 /\
  snd (edit_phone (of_string "1234567890") (of_string "12ab") rec0) = rec0.
Proof.
  apply (C10_edit_phone_atomic rec0 (of_string "1234567890") (of_string "12ab")).
  - left. reflexivity.
  - reflexivity.
Defined.

(* ================================================================== *)
(** ** Record: birthday                                                *)
(* ================================================================== *)

Lemma Birthday_init_cases raw :
  (exists d, strptime_dmY raw = Some d /\ Birthday_init raw = Ok (mkBirthday d)) \/
  (strptime_dmY raw = None /\ Birthday_init raw = Raise InvalidFormat_date).
Proof.
  unfold Birthday_init, Birthday_is_valid.
  destruct (strptime_dmY raw) as [d|]; [left; exists d|right]; auto.
Qed.

Lemma edit_phone_from_fields i todo old_phone new_phone self :
  let r := snd (edit_phone_from i todo old_phone new_phone self) in
  name r = name self /\ birthday r = birthday self.
Proof.
  revert i. induction todo as [|p todo IH]; intros i; simpl; [auto|].
  case_bool_decide; [|apply IH].
  destruct (Phone_init new_phone); simpl; auto.
Qed.

(** No call changes the name; the phones are all a call other than
    [add_birthday] can change. *)
Lemma run_op_name self op : name (run_op self op) = name self.
Proof.
  destruct op; simpl; try reflexivity.
  - unfold add_phone. destruct (Phone_init raw); reflexivity.
  - apply edit_phone_from_fields.
  - unfold add_birthday.
    destruct (Birthday_init raw); [destruct (birthday self)|]; reflexivity.
Qed.

Lemma run_op_birthday self op :
  birthday (run_op self op) = birthday self \/
  (birthday self = None /\ exists b, birthday (run_op self op) = Some b).
Proof.
  destruct op; simpl; try (left; reflexivity).
  - left. unfold add_phone. destruct (Phone_init raw); reflexivity.
  - left. apply edit_phone_from_fields.
  - unfold add_birthday.
    destruct (Birthday_init raw) as [b|]; [|left; reflexivity].
    destruct (birthday self) eqn:E; simpl; [left; exact E|].
    right. split; [reflexivity|]. now exists b.
Qed.

Lemma run_ops_birthday_set ops self b :
  birthday self = Some b -> birthday (run_ops ops self) = Some b.
Proof.
  unfold run_ops. revert self. induction ops as [|op ops IH]; intros self H; simpl.
  - exact H.
  - apply IH. destruct (run_op_birthday self op) as [E|[E _]]; congruence.
Qed.

(** C2, as the code has it.  On a record whose birthday is set,
    [add_birthday raw] never changes the record; it answers "Already
    have" when [raw] is a valid date and raises InvalidFormat when it is
    not (the text is validated before the record is looked at).  Called
    twice with valid dates on a record without birthday, the first call
    sets the birthday and the second leaves it and answers "Already
    have". *)
Theorem C2_add_birthday_already_set (self : Record_t) (raw : str) :
  (forall b, birthday self = Some b ->
     snd (add_birthday raw self) = self /\
     birthday (snd (add_birthday raw self)) = Some b /\
     (forall d, strptime_dmY raw = Some d ->
        fst (add_birthday raw self) = Ok Already_have) /\
     (strptime_dmY raw = None ->
        fst (add_birthday raw self) = Raise InvalidFormat_date)) /\
  (forall d raw2 d2,
     birthday self = None ->
     strptime_dmY raw = Some d -> strptime_dmY raw2 = Some d2 ->
     let r1 := snd (add_birthday raw self) in
     fst (add_birthday raw self) = Ok Birthday_added /\
     birthday r1 = Some (mkBirthday d) /\
     add_birthday raw2 r1 = (Ok Already_have, r1)).
Proof.
  split.
  - intros b Hb. unfold add_birthday. rewrite Hb.
    destruct (Birthday_init_cases raw) as [[d [E ->]]|[E ->]]; simpl;
      repeat split; auto; intros; congruence.
  - intros d raw2 d2 Hn E E2. unfold add_birthday at 1 2 3.
    destruct (Birthday_init_cases raw) as [[d' [E' ->]]|[E' _]]; [|congruence].
    rewrite Hn. simpl. assert (d' = d) as -> by congruence.
    repeat split. unfold add_birthday.
    destruct (Birthday_init_cases raw2) as [[d2' [_ ->]]|[E2' _]]; [|congruence].
    reflexivity.
Qed.

Lemma C2_add_birthday_already_set_witness :
  snd (add_birthday (of_string "01.02.2003") rec1) = rec1 /\
  fst (add_birthday (of_string "01.02.2003") rec1) = Ok Already_have /\
  add_birthday (of_string "01.02.2003")
    (snd (add_birthday (of_string "05.06.1990") rec0))
  = (Ok Already_have, snd (add_birthday (of_string "05.06.1990") rec0)).
Proof.
  pose proof (C2_add_birthday_already_set rec1 (of_string "01.02.2003")) as [A _].
  specialize (A (mkBirthday (mkdate 1990 6 5)) eq_refl) as [A1 [_ [A2 _]]].
  pose proof (C2_add_birthday_already_set rec0 (of_string "05.06.1990")) as [_ B].
  specialize (B (mkdate 1990 6 5) (of_string "01.02.2003") (mkdate 2003 2 1)
                eq_refl eq_refl eq_refl) as [_ [_ B]].
  split; [exact A1|]. split; [|exact B].
  exact (A2 (mkdate 2003 2 1) eq_refl).
Defined.

(** C2 as stated fails: with the birthday set, a text that is no date
    makes [add_birthday] raise instead of answering "Already have". *)
Lemma C2_counterexample :
  birthday rec1 = Some (mkBirthday (mkdate 1990 6 5)) /\
  fst (add_birthday (of_string "soon") rec1) = Raise InvalidFormat_date /\
  fst (add_birthday (of_string "soon") rec1) <> Ok Already_have.
Proof. repeat split. vm_compute. discriminate. Qed.

(** C9.  Whatever calls are made on a record, once its birthday is set
    every later state of the record has that same birthday: it is never
    unset and never replaced.  A single call either leaves the birthday
    as it is or takes it from unset to set. *)
Theorem C9_birthday_one_way (self : Record_t) (ops1 ops2 : list record_op)
    (b : Birthday) :
  birthday (run_ops ops1 self) = Some b ->
  birthday (run_ops (ops1 ++ ops2) self) = Some b /\
  (forall op,
     birthday (run_op (run_ops ops1 self) op) = birthday (run_ops ops1 self)).
Proof.
  intros H. split.
  - unfold run_ops. rewrite fold_left_app. now apply run_ops_birthday_set.
  - intros op. destruct (run_op_birthday (run_ops ops1 self) op) as [E|[E _]];
      congruence.
Qed.

Lemma C9_birthday_one_way_witness :
  birthday (run_ops ([OpAddBirthday (of_string "05.06.1990")]
                     ++ [OpAddBirthday (of_string "01.02.2003");
                         OpAddPhone (of_string "1112223333");
                         OpEditPhone (of_string "1112223333") (of_string "x");
                         OpRemovePhone (of_string "1234567890")]) rec0)
  = Some (mkBirthday (mkdate 1990 6 5)).
Proof.
  apply (C9_birthday_one_way rec0 [OpAddBirthday (of_string "05.06.1990")]).
  reflexivity.
Defined.

(* ================================================================== *)
(** ** The dictionary                                                  *)
(* ================================================================== *)

Section DictFacts.
Context {V : Type}.
Implicit Types (d : Dict.t V) (k : str) (v : V).

Lemma get_None_iff k d : Dict.get k d = None <-> ~ In k (Dict.keys d).
Proof.
  induction d as [|[k' v'] d IH]; simpl; [tauto|].
  case_bool_decide as E; [|rewrite IH]; intuition congruence.
Qed.

Lemma get_Some_In k v d : Dict.get k d = Some v -> In (k, v) d.
Proof.
  induction d as [|[k' v'] d IH]; simpl; [discriminate|].
  case_bool_decide as E; [intros [= <-]; subst; auto|auto].
Qed.

Lemma get_setitem_eq k v d : Dict.get k (Dict.setitem k v d) = Some v.
Proof.
  induction d as [|[k' v'] d IH]; simpl.
  - now rewrite bool_decide_eq_true_2.
  - case_bool_decide as E; simpl.
    + now rewrite bool_decide_eq_true_2.
    + now rewrite bool_decide_eq_false_2.
Qed.

Lemma get_setitem_ne k k2 v d :
  k2 <> k -> Dict.get k2 (Dict.setitem k v d) = Dict.get k2 d.
Proof.
  intros N. induction d as [|[k' v'] d IH]; simpl.
  - rewrite bool_decide_eq_false_2; [reflexivity|congruence].
  - case_bool_decide as E; simpl.
    + subst. now rewrite !bool_decide_eq_false_2 by congruence.
    + now rewrite IH.
Qed.

Lemma keys_setitem_present k v d :
  In k (Dict.keys d) -> Dict.keys (Dict.setitem k v d) = Dict.keys d.
Proof.
  induction d as [|[k' v'] d IH]; simpl; [tauto|].
  case_bool_decide as E; simpl; [reflexivity|].
  intros [H|H]; [contradiction|]. now rewrite IH.
Qed.

Lemma keys_setitem_absent k v d :
  ~ In k (Dict.keys d) -> Dict.keys (Dict.setitem k v d) = Dict.keys d ++ [k].
Proof.
  induction d as [|[k' v'] d IH]; simpl; [reflexivity|].
  intros H. case_bool_decide as E; simpl; [tauto|].
  rewrite IH; [reflexivity|tauto].
Qed.

Lemma length_setitem_present k v d :
  In k (Dict.keys d) -> length (Dict.setitem k v d) = length d.
Proof.
  intros H. rewrite <- !(length_map fst). fold (Dict.keys d).
  fold (Dict.keys (Dict.setitem k v d)).
  now rewrite keys_setitem_present.
Qed.

Lemma wf_setitem k v d : Dict.wf d -> Dict.wf (Dict.setitem k v d).
Proof.
  unfold Dict.wf. intros H.
  destruct (in_dec (list_eq_dec N.eq_dec) k (Dict.keys d)) as [E|E].
  - now rewrite keys_setitem_present.
  - rewrite keys_setitem_absent by exact E.
    apply list.NoDup_app. split; [exact H|]. split; [|apply NoDup_singleton].
    intros x Hx Hk. apply list_elem_of_singleton in Hk. subst.
    now apply list_elem_of_In in Hx.
Qed.

Lemma setitem_In k v d kv :
  In kv (Dict.setitem k v d) -> kv = (k, v) \/ In kv d.
Proof.
  induction d as [|[k' v'] d IH]; simpl; [intuition|].
  case_bool_decide as E; simpl; [subst|]; intuition.
Qed.

Lemma pop_fst k d : fst (Dict.pop k d) = Dict.get k d.
Proof.
  induction d as [|[k' v'] d IH]; simpl; [reflexivity|].
  case_bool_decide as E; [reflexivity|]. destruct (Dict.pop k d); exact IH.
Qed.

Lemma pop_absent k d : Dict.get k d = None -> snd (Dict.pop k d) = d.
Proof.
  induction d as [|[k' v'] d IH]; simpl; [reflexivity|].
  case_bool_decide as E; [discriminate|]. intros H. specialize (IH H).
  destruct (Dict.pop k d). simpl in *. now subst.
Qed.

Lemma pop_In k d kv : In kv (snd (Dict.pop k d)) -> In kv d.
Proof.
  induction d as [|[k' v'] d IH]; simpl; [tauto|].
  case_bool_decide as E; [simpl; auto|].
  destruct (Dict.pop k d). simpl in *. intuition.
Qed.

Lemma pop_keys_In k d k2 :
  In k2 (Dict.keys (snd (Dict.pop k d))) -> In k2 (Dict.keys d).
Proof.
  unfold Dict.keys. rewrite !in_map_iff. intros [kv [E H]].
  exists kv. split; [exact E|]. now apply pop_In in H.
Qed.

Lemma wf_pop k d : Dict.wf d -> Dict.wf (snd (Dict.pop k d)).
Proof.
  unfold Dict.wf. induction d as [|[k' v'] d IH]; simpl; [auto|].
  rewrite list.NoDup_cons, list_elem_of_In. intros [N H].
  case_bool_decide as E; [exact H|].
  pose proof (pop_keys_In k d k') as P. specialize (IH H).
  destruct (Dict.pop k d). simpl in *.
  apply list.NoDup_cons. rewrite list_elem_of_In. tauto.
Qed.

Lemma get_pop_eq k d : Dict.wf d -> Dict.get k (snd (Dict.pop k d)) = None.
Proof.
  unfold Dict.wf. induction d as [|[k' v'] d IH]; simpl; [auto|].
  rewrite list.NoDup_cons, list_elem_of_In. intros [N H].
  case_bool_decide as E.
  - subst. simpl. now apply get_None_iff.
  - specialize (IH H). destruct (Dict.pop k d). simpl in *.
    now rewrite bool_decide_eq_false_2.
Qed.

Lemma get_pop_ne k k2 d :
  k2 <> k -> Dict.get k2 (snd (Dict.pop k d)) = Dict.get k2 d.
Proof.
  intros N. induction d as [|[k' v'] d IH]; simpl; [auto|].
  case_bool_decide as E.
  - subst. simpl. now rewrite bool_decide_eq_false_2 by congruence.
  - destruct (Dict.pop k d). simpl in *. now rewrite IH.
Qed.
End DictFacts.

(* ================================================================== *)
(** ** AddressBook: delete                                             *)
(* ================================================================== *)

Import AddressBook.

Lemma delete_fst nm self :
  fst (delete nm self)
  = match find nm self with Some _ => Ok tt | None => Raise NotFound_contact end.
Proof.
  unfold delete, find. rewrite <- pop_fst.
  destruct (Dict.pop nm self) as [[r|] d]; reflexivity.
Qed.

Lemma delete_snd nm self : snd (delete nm self) = snd (Dict.pop nm self).
Proof.
  unfold delete. destruct (Dict.pop nm self) as [[r|] d]; reflexivity.
Qed.

(** C7.  On a book (a dictionary: no key twice), [delete nm] fails with
    NotFound if and only if there was no entry for [nm], and then the book
    is unchanged; when there is an entry it succeeds; afterwards
    [find nm] reports absence, and every other name finds what it found
    before. *)
Theorem C7_delete (self : AddressBook.t) (nm : str) :
  Dict.wf self ->
  (fst (delete nm self) = Raise NotFound_contact <-> find nm self = None) /\
  (find nm self = None -> snd (delete nm self) = self) /\
  (forall r, find nm self = Some r -> fst (delete nm self) = Ok tt) /\
  find nm (snd (delete nm self)) = None /\
  (forall nm2, nm2 <> nm -> find nm2 (snd (delete nm self)) = find nm2 self) /\
  Dict.wf (snd (delete nm self)).
Proof.
  intros W. rewrite delete_fst, delete_snd. unfold find.
  split; [destruct (Dict.get nm self); split; congruence|].
  split; [apply pop_absent|].
  split; [intros r ->; reflexivity|].
  split; [now apply get_pop_eq|].
  split; [intros nm2 N; now apply get_pop_ne|now apply wf_pop].
Qed.

Lemma C7_delete_witness :
  fst (delete (of_string "Bob") book0) = Raise NotFound_contact /\
  fst (delete (of_string "Alice") book0) = Ok tt /\
  find (of_string "Alice") (snd (delete (of_string "Alice") book0)) = None.
Proof.
  assert (Dict.wf book0) as W.
  { unfold Dict.wf. vm_compute. apply NoDup_singleton. }
  pose proof (C7_delete book0 (of_string "Bob") W) as [B _].
  pose proof (C7_delete book0 (of_string "Alice") W) as [_ [_ [A1 [A2 _]]]].
  split; [apply B; reflexivity|].
  split; [exact (A1 rec0 eq_refl)|exact A2].
Defined.

(* ================================================================== *)
(** ** AddressBook: add_record and the unique-name invariant           *)
(* ================================================================== *)

Lemma keyed_by_name_setitem nm r self :
  Name_value (name r) = nm ->
  keyed_by_name self -> keyed_by_name (Dict.setitem nm r self).
Proof.
  unfold keyed_by_name. rewrite !List.Forall_forall.
  intros E H kv Hkv. apply setitem_In in Hkv as [->|Hkv]; [exact E|auto].
Qed.

Lemma keyed_by_name_pop nm self :
  keyed_by_name self -> keyed_by_name (snd (Dict.pop nm self)).
Proof.
  unfold keyed_by_name. rewrite !List.Forall_forall.
  intros H kv Hkv. apply H. now apply pop_In in Hkv.
Qed.

Lemma run_invariant self o :
  Dict.wf self /\ keyed_by_name self ->
  Dict.wf (run self o) /\ keyed_by_name (run self o).
Proof.
  intros [W K]. destruct o as [r|nm|nm|tdate| |nm ro]; simpl; auto.
  - split; [now apply wf_setitem|now apply keyed_by_name_setitem].
  - rewrite delete_snd. split; [now apply wf_pop|now apply keyed_by_name_pop].
  - destruct (find nm self) as [r|] eqn:F; [|auto].
    split; [now apply wf_setitem|].
    apply keyed_by_name_setitem; [|exact K].
    rewrite run_op_name. apply get_Some_In in F.
    unfold keyed_by_name in K. rewrite List.Forall_forall in K.
    exact (K _ F).
Qed.

Lemma reachable_invariant self :
  reachable self -> Dict.wf self /\ keyed_by_name self.
Proof.
  intros [ops ->].
  assert (Dict.wf empty /\ keyed_by_name empty) as H.
  { split; [apply NoDup_nil_2|constructor]. }
  revert H. generalize empty. induction ops as [|o ops IH]; intros b H; simpl.
  - exact H.
  - apply IH. now apply run_invariant.
Qed.

Lemma reachable_run self o : reachable self -> reachable (run self o).
Proof.
  intros [ops ->]. exists (ops ++ [o]). now rewrite fold_left_app.
Qed.

Lemma invariant_unique_names self :
  Dict.wf self -> keyed_by_name self -> unique_names self.
Proof.
  unfold Dict.wf, keyed_by_name, unique_names.
  rewrite List.Forall_forall. intros W K i j k1 r1 k2 r2 Hi Hj E.
  pose proof (K _ (proj1 (list_elem_of_In _ _) (list_elem_of_lookup_2 _ _ _ Hi))) as E1.
  pose proof (K _ (proj1 (list_elem_of_In _ _) (list_elem_of_lookup_2 _ _ _ Hj))) as E2.
  simpl in E1, E2.
  assert (k2 = k1) as -> by congruence.
  apply (NoDup_lookup (Dict.keys self) i j k1 W); unfold Dict.keys;
    change (map fst self) with (fst <$> self); rewrite list_lookup_fmap.
  - exact (f_equal (fmap fst) Hi).
  - exact (f_equal (fmap fst) Hj).
Qed.

(** C8.  A book built with the core operations holds at most one record
    per name: no key occurs twice and every record sits under its own
    name.  [add_record], which cannot fail, puts the record under its
    name: [find] on that name then returns exactly that record, other
    names find what they found before, the book still holds at most one
    record per name, and adding another record of the same name replaces
    the entry (last write wins) without adding one. *)
Theorem C8_add_record_unique (self : AddressBook.t) (record : Record_t) :
  reachable self ->
  unique_names self /\ Dict.wf self /\
  find (Name_value (name record)) (add_record record self) = Some record /\
  (forall nm, nm <> Name_value (name record) ->
     find nm (add_record record self) = find nm self) /\
  reachable (add_record record self) /\
  unique_names (add_record record self) /\
  (forall r2, Name_value (name r2) = Name_value (name record) ->
     find (Name_value (name record)) (add_record r2 (add_record record self))
       = Some r2 /\
     length (add_record r2 (add_record record self))
       = length (add_record record self)).
Proof.
  intros R. pose proof (reachable_invariant _ R) as [W K].
  pose proof (reachable_run _ (AddRecord record) R) as R2. simpl in R2.
  pose proof (reachable_invariant _ R2) as [W2 K2].
  split; [now apply invariant_unique_names|]. split; [exact W|].
  split; [apply get_setitem_eq|].
  split; [intros nm N; now apply get_setitem_ne|].
  split; [exact R2|]. split; [now apply invariant_unique_names|].
  intros r2 E. unfold add_record at 1 3. rewrite E.
  split; [apply get_setitem_eq|].
  apply length_setitem_present.
  assert (Dict.get (Name_value (name record)) (add_record record self) <> None) as G.
  { unfold add_record. now rewrite get_setitem_eq. }
  destruct (in_dec (list_eq_dec N.eq_dec) (Name_value (name record))
              (Dict.keys (add_record record self))) as [I|I]; [exact I|].
  now apply get_None_iff in I.
Qed.

Lemma C8_add_record_unique_witness :
  find (of_string "Alice") (add_record rec1 book0) = Some rec1 /\
  length (add_record rec1 book0) = 1%nat.
Proof.
  assert (reachable book0) as R by (exists [AddRecord rec0]; reflexivity).
  pose proof (C8_add_record_unique book0 rec1 R) as [_ [_ [F _]]].
  split; [exact F|reflexivity].
Defined.

(* ================================================================== *)
(** ** AddressBook: upcoming birthdays                                 *)
(* ================================================================== *)

Lemma this_year_birthday_eq tdate r :
  this_year_birthday tdate r
  = match birthday r with
    | Some b => replace_year (Birthday_value b) (year tdate)
    | None => None
    end.
Proof. reflexivity. Qed.

Lemma upcoming_loop_ok pad_year tdate todo acc :
  replaceable tdate todo ->
  upcoming_loop pad_year tdate todo acc
  = Ok (acc ++ map (upcoming_of pad_year tdate)
                   (List.filter (in_window tdate) todo)).
Proof.
  unfold replaceable. revert acc.
  induction todo as [|r todo IH]; intros acc H.
  - simpl. now rewrite app_nil_r.
  - inversion H as [|? ? Hr Ht]; subst.
    pose proof (this_year_birthday_eq tdate r) as TY.
    cbn [upcoming_loop List.filter]. unfold in_window, upcoming_of at 1.
    destruct (birthday r) as [b|]; rewrite TY.
    + destruct (replace_year (Birthday_value b) (year tdate)) as [d|].
      * cbv zeta.
        destruct ((0 <=? sub_days d tdate)%Z && (sub_days d tdate <=? 7)%Z).
        -- rewrite IH by exact Ht. cbn [map]. rewrite <- app_assoc.
           unfold upcoming_of at 1. now rewrite TY.
        -- now apply IH.
      * destruct Hr; congruence.
    + now apply IH.
Qed.

Lemma upcoming_loop_raises pad_year tdate todo acc :
  ~ replaceable tdate todo ->
  upcoming_loop pad_year tdate todo acc
  = Raise (ValueError "day is out of range for month").
Proof.
  unfold replaceable. revert acc.
  induction todo as [|r todo IH]; intros acc H.
  - destruct H. constructor.
  - pose proof (this_year_birthday_eq tdate r) as TY.
    cbn [upcoming_loop].
    destruct (birthday r) as [b|] eqn:B.
    + destruct (replace_year (Birthday_value b) (year tdate)) as [d|];
        [|reflexivity].
      assert (~ Forall (fun r => birthday r = None \/
                                 this_year_birthday tdate r <> None) todo) as H'.
      { intros F. apply H. constructor; [|exact F]. right. rewrite TY. discriminate. }
      cbv zeta. destruct (_ && _); now apply IH.
    + apply IH. intros F. apply H. constructor; [now left|exact F].
Qed.

(** When every birthday of the book exists in the year of [tdate], the
    result lists exactly the records in the window, in the order of the
    book: a record is in the result if and only if it has a birthday and
    that birthday, moved to the year of [tdate], is 0 to 7 days ahead. *)
Lemma get_upcoming_birthdays_window pad_year tdate (self : AddressBook.t) :
  replaceable tdate (Dict.values self) ->
  get_upcoming_birthdays pad_year tdate self
  = Ok (map (upcoming_of pad_year tdate)
            (List.filter (in_window tdate) (Dict.values self))).
Proof. intros H. unfold get_upcoming_birthdays. now rewrite upcoming_loop_ok. Qed.

(** The three cases of the specification, today being 2024-06-01: the
    birthday 1990-06-05 is listed, 1990-06-10 and 1990-05-30 are not. *)
Lemma get_upcoming_birthdays_june :
  get_upcoming_birthdays true (mkdate 2024 6 1) book_june
  = Ok [mkUpcoming (of_string "Ann") (of_string "Wednesday, 05.06.2024")] /\
  map (in_window (mkdate 2024 6 1)) (Dict.values book_june) = [true; false; false] /\
  map (fun r => option_map (fun d => sub_days d (mkdate 2024 6 1))
                  (this_year_birthday (mkdate 2024 6 1) r))
      (Dict.values book_june)
  = [Some 4; Some 9; Some (-2)]%Z.
Proof. repeat split. Qed.

(** C1 at a book with a 29 February birthday, in a year that is not a
    leap year: [replace] raises, the exception leaves
    [get_upcoming_birthdays], and no list is returned, although Ann's
    birthday is four days ahead. *)
Theorem C1_leap_day_birthday_raises (pad_year : bool) :
  get_upcoming_birthdays pad_year (mkdate 2023 6 1) book_leap
    = Raise (ValueError "day is out of range for month") /\
  map (fun r => Name_value (name r)) (Dict.values book_leap)
    = [of_string "Leo"; of_string "Ann"] /\
  map (in_window (mkdate 2023 6 1)) (Dict.values book_leap) = [false; true] /\
  find (of_string "Leo") book_leap
    = Some (mkRecord (mkName (of_string "Leo")) []
              (Some (mkBirthday (mkdate 2000 2 29)))).
Proof.
  split; [destruct pad_year; reflexivity|]. repeat split.
Qed.

(* ================================================================== *)
(** ** strptime: the matcher                                           *)
(* ================================================================== *)

(** The matcher finds exactly the splits of the input into a text of the
    expression and a rest. *)
Lemma rx_spec r : forall s m rest,
  In (m, rest) (rx r s) <-> s = m ++ rest /\ lang r m.
Proof.
  induction r as [c|lo hi| |r1 IH1 r2 IH2|r1 IH1 r2 IH2]; intros s m rest.
  - simpl. destruct s as [|c' s]; [split; [intros []|intros [E ->]; discriminate]|].
    destruct (N.eqb_spec c' c) as [->|N]; simpl.
    + split; [intros [[= <- <-]|[]]; auto|].
      intros [E ->]. injection E as <-. auto.
    + split; [tauto|]. intros [E ->]. injection E as -> _. congruence.
  - simpl. destruct s as [|c' s].
    + simpl. split; [tauto|]. intros [E [c [-> _]]]. discriminate.
    + destruct (_ && _) eqn:B; simpl.
      * apply andb_true_iff in B as [B1 B2]. apply N.leb_le in B1, B2.
        split; [intros [[= <- <-]|[]]; eauto|].
        intros [E [c [-> _]]]. injection E as -> ->. auto.
      * split; [tauto|]. intros [E [c [-> [B1 B2]]]]. injection E as -> ->.
        apply N.leb_le in B1, B2. rewrite B1, B2 in B. discriminate.
  - simpl. destruct s as [|c' s].
    + simpl. split; [tauto|]. intros [E [c [-> _]]]. discriminate.
    + destruct (isdecimal_char c') eqn:B; simpl.
      * split; [intros [[= <- <-]|[]]; eauto|].
        intros [E [c [-> _]]]. injection E as -> ->. auto.
      * split; [tauto|]. intros [E [c [-> B']]]. injection E as -> ->.
        congruence.
  - simpl. rewrite in_flat_map. split.
    + intros [[m1 s1] [H1 H2]]. apply in_map_iff in H2 as [[m2 s2] [E H2]].
      simpl in *. injection E as <- <-.
      apply IH1 in H1 as [-> L1]. apply IH2 in H2 as [-> L2].
      split; [now rewrite app_assoc|eauto].
    + intros [-> [m1 [m2 [-> [L1 L2]]]]].
      exists (m1, m2 ++ rest). split; [apply IH1; split; [now rewrite app_assoc|auto]|].
      apply in_map_iff. exists (m2, rest). split; [reflexivity|].
      apply IH2. auto.
  - simpl. rewrite in_app_iff, IH1, IH2. tauto.
Qed.

Lemma match_dmY_spec s d m y rest :
  In (d, m, y, rest) (match_dmY s) <->
  s = d ++ cdot :: m ++ cdot :: y ++ rest /\
  lang re_d d /\ lang re_m m /\ lang re_Y y.
Proof.
  unfold match_dmY. split.
  - intros H.
    apply in_flat_map in H as [[d' s1] [Hd H]].
    apply in_flat_map in H as [[p1 s2] [Hp1 H]].
    apply in_flat_map in H as [[m' s3] [Hm H]].
    apply in_flat_map in H as [[p2 s4] [Hp2 H]].
    apply in_map_iff in H as [[y' s5] [E Hy]].
    cbn [fst snd] in *. injection E as <- <- <- <-.
    apply rx_spec in Hd as [-> Ld]. apply rx_spec in Hp1 as [-> Lp1].
    apply rx_spec in Hm as [-> Lm]. apply rx_spec in Hp2 as [-> Lp2].
    apply rx_spec in Hy as [-> Ly]. simpl in Lp1, Lp2. subst. auto.
  - intros [-> [Ld [Lm Ly]]].
    apply in_flat_map. exists (d, cdot :: m ++ cdot :: y ++ rest).
    split; [apply rx_spec; auto|].
    apply in_flat_map. exists ([cdot], m ++ cdot :: y ++ rest).
    split; [apply rx_spec; simpl; auto|].
    apply in_flat_map. exists (m, cdot :: y ++ rest).
    split; [apply rx_spec; auto|].
    apply in_flat_map. exists ([cdot], y ++ rest).
    split; [apply rx_spec; simpl; auto|].
    apply in_map_iff. exists (y, rest). split; [reflexivity|].
    apply rx_spec. auto.
Qed.

Ltac lang_cases H :=
  simpl in H;
  repeat match goal with
         | H : _ \/ _ |- _ => destruct H
         | H : exists _, _ |- _ => destruct H
         | H : _ /\ _ |- _ => destruct H
         end;
  subst.

Ltac not_a_dot :=
  unfold c0, c1, c2, c3, c9, cspace, cdot in *;
  simpl; intros E;
  repeat (destruct E as [E|E];
          [first [discriminate E | lia
                 | match goal with
                   | D : isdecimal_char _ = true |- _ =>
                       rewrite E in D; vm_compute in D; discriminate D
                   end]|]);
  exact E.

Lemma lang_re_d_no_dot d : lang re_d d -> ~ In cdot d.
Proof. intros H. lang_cases H; not_a_dot. Qed.

Lemma lang_re_m_no_dot m : lang re_m m -> ~ In cdot m.
Proof. intros H. lang_cases H; not_a_dot. Qed.

Lemma lang_re_Y_length y : lang re_Y y -> length y = 4%nat.
Proof. intros H. lang_cases H. reflexivity. Qed.

(** Two texts without a dot that are each followed by a dot in the same
    string are the same text. *)
Lemma split_at_dot (a a' b b' : list N) :
  ~ In cdot a -> ~ In cdot a' ->
  a ++ cdot :: b = a' ++ cdot :: b' -> a = a' /\ b = b'.
Proof.
  revert a'. induction a as [|x a IH]; intros [|x' a'] Ha Ha' E; simpl in *.
  - injection E as <-. auto.
  - injection E as <-. tauto.
  - injection E as ->. tauto.
  - injection E as <- E. destruct (IH a') as [-> ->]; auto.
Qed.

(** The pattern matches a string in at most one way, so that the first
    match is the only one. *)
Lemma match_dmY_unique s x x' :
  In x (match_dmY s) -> In x' (match_dmY s) -> x = x'.
Proof.
  destruct x as [[[d m] y] rest], x' as [[[d' m'] y'] rest'].
  rewrite !match_dmY_spec. intros [-> [Ld [Lm Ly]]] [E [Ld' [Lm' Ly']]].
  apply split_at_dot in E as [<- E]; auto using lang_re_d_no_dot.
  apply split_at_dot in E as [<- E]; auto using lang_re_m_no_dot.
  apply app_inj_1 in E as [<- <-]; [reflexivity|].
  now rewrite (lang_re_Y_length y), (lang_re_Y_length y').
Qed.

Lemma head_of_unique {A} (l : list A) x :
  In x l -> (forall y, In y l -> y = x) -> head l = Some x.
Proof.
  destruct l as [|y l]; simpl; [tauto|]. intros _ U. f_equal. apply U. auto.
Qed.

Lemma head_In {A} (l : list A) x : head l = Some x -> In x l.
Proof. destruct l; simpl; [discriminate|]. intros [= ->]. auto. Qed.

(** What [strptime] accepts, and with which date. *)
Lemma strptime_dmY_spec s x :
  strptime_dmY s = Some x <->
  lenient_text s x /\ check_date_fields (year x) (month x) (day x) = true.
Proof.
  unfold strptime_dmY, lenient_text. split.
  - destruct (head (match_dmY s)) as [[[[d m] y] rest]|] eqn:H; [|discriminate].
    apply head_In, match_dmY_spec in H as [-> [Ld [Lm Ly]]].
    destruct rest; [|discriminate]. rewrite app_nil_r.
    destruct (int y) as [vy|] eqn:Iy; [|discriminate].
    destruct (int m) as [vm|] eqn:Im; [|discriminate].
    destruct (int d) as [vd|] eqn:Id; [|discriminate].
    unfold date_new. destruct (check_date_fields vy vm vd) eqn:C; [|discriminate].
    intros [= <-]. cbn [year month day]. split; [|exact C].
    exists d, m, y. auto 10.
  - intros [[d [m [y [-> [Ld [Lm [Ly [Iy [Im Id]]]]]]]]] C].
    rewrite (head_of_unique _ (d, m, y, [])).
    + rewrite Iy, Im, Id. unfold date_new. rewrite C. now destruct x.
    + apply match_dmY_spec. rewrite app_nil_r. auto.
    + intros x' Hx'. apply (match_dmY_unique _ _ _ Hx').
      apply match_dmY_spec. rewrite app_nil_r. auto.
Qed.

(* ================================================================== *)
(** ** Canonical dates                                                 *)
(* ================================================================== *)

Lemma forall_ascii_digits (P : N -> bool) :
  forallb P ascii_digits = true ->
  forall c, is_ascii_digit c = true -> P c = true.
Proof.
  intros H c Hc. rewrite forallb_forall in H. apply H.
  ascii_digit_split Hc; simpl; tauto.
Qed.

Lemma lstrip_id l :
  forallb (fun c => negb (isspace c)) l = true -> lstrip l = l.
Proof.
  destruct l as [|c l]; simpl; [reflexivity|].
  now destruct (isspace c).
Qed.

Lemma strip_id l :
  forallb (fun c => negb (isspace c)) l = true -> strip l = l.
Proof.
  intros H. unfold strip, rstrip. rewrite (lstrip_id l H).
  rewrite lstrip_id; [apply rev_involutive|].
  rewrite forallb_forall in *. intros c Hc. apply H. now apply in_rev.
Qed.

Lemma int_digits_ascii l : forall acc,
  forallb is_ascii_digit l = true ->
  int_digits acc l
  = Some (fold_left (fun acc c => (10 * acc + Z.of_N (c - 48))%Z) l acc).
Proof.
  induction l as [|c l IH]; intros acc H; simpl in *; [reflexivity|].
  apply andb_true_iff in H as [Hc Hl].
  rewrite (ascii_digit_value c Hc). now apply IH.
Qed.

Lemma int_ascii l :
  l <> [] -> forallb is_ascii_digit l = true -> int l = Some (num l).
Proof.
  intros N H. unfold int. rewrite strip_id.
  - destruct l; [congruence|]. now apply int_digits_ascii.
  - rewrite forallb_forall in *. intros c Hc.
    now rewrite ascii_digit_not_space by auto.
Qed.

Lemma days_in_month_le_31 y m : (_days_in_month y m <= 31)%Z.
Proof.
  unfold _days_in_month. destruct (_ && _); [lia|].
  destruct (Z.to_nat m) as [|[|[|[|[|[|[|[|[|[|[|[|[|n]]]]]]]]]]]]]; simpl; try lia.
  destruct n; simpl; lia.
Qed.

Lemma check_date_fields_bounds y m d :
  check_date_fields y m d = true ->
  (1 <= y <= 9999 /\ 1 <= m <= 12 /\ 1 <= d <= 31)%Z.
Proof.
  unfold check_date_fields, MINYEAR, MAXYEAR.
  rewrite !andb_true_iff, !Z.leb_le.
  pose proof (days_in_month_le_31 y m). lia.
Qed.

(** Two ASCII digits that write a day 1..31 are a text of [%d], and [%d]
    prints them back. *)
Lemma day_text_canonical a b :
  is_ascii_digit a = true -> is_ascii_digit b = true ->
  (1 <= num [a; b] <= 31)%Z ->
  lang re_d [a; b] /\ fmt_02 (num [a; b]) = [a; b].
Proof.
  intros Ha Hb R.
  assert (forallb (fun a => forallb (fun b =>
            implb ((1 <=? num [a; b])%Z && (num [a; b] <=? 31)%Z)
                  (bool_decide (([a; b], []) ∈ rx re_d [a; b]) &&
                   bool_decide (fmt_02 (num [a; b]) = [a; b])))
            ascii_digits) ascii_digits = true) as T by (vm_compute; reflexivity).
  pose proof (forall_ascii_digits _ (forall_ascii_digits _ T a Ha) b Hb) as T'.
  cbv beta in T'.
  rewrite (proj2 (andb_true_iff _ _)) in T'
    by (split; apply Z.leb_le; lia).
  cbn [implb] in T'. apply andb_true_iff in T' as [T1 T2].
  apply bool_decide_eq_true_1 in T1, T2.
  split; [|exact T2].
  apply list_elem_of_In, rx_spec in T1. tauto.
Qed.

Lemma month_text_canonical a b :
  is_ascii_digit a = true -> is_ascii_digit b = true ->
  (1 <= num [a; b] <= 12)%Z ->
  lang re_m [a; b] /\ fmt_02 (num [a; b]) = [a; b].
Proof.
  intros Ha Hb R.
  assert (forallb (fun a => forallb (fun b =>
            implb ((1 <=? num [a; b])%Z && (num [a; b] <=? 12)%Z)
                  (bool_decide (([a; b], []) ∈ rx re_m [a; b]) &&
                   bool_decide (fmt_02 (num [a; b]) = [a; b])))
            ascii_digits) ascii_digits = true) as T by (vm_compute; reflexivity).
  pose proof (forall_ascii_digits _ (forall_ascii_digits _ T a Ha) b Hb) as T'.
  cbv beta in T'.
  rewrite (proj2 (andb_true_iff _ _)) in T'
    by (split; apply Z.leb_le; lia).
  cbn [implb] in T'. apply andb_true_iff in T' as [T1 T2].
  apply bool_decide_eq_true_1 in T1, T2.
  split; [|exact T2].
  apply list_elem_of_In, rx_spec in T1. tauto.
Qed.

(** Four ASCII digits are a text of [%Y]; [%Y] prints them back when it
    pads, and in any case when the year has four significant digits. *)
Lemma year_text_canonical a b c d :
  is_ascii_digit a = true -> is_ascii_digit b = true ->
  is_ascii_digit c = true -> is_ascii_digit d = true ->
  lang re_Y [a; b; c; d] /\
  fmt_Y true (num [a; b; c; d]) = [a; b; c; d] /\
  ((1000 <= num [a; b; c; d])%Z -> fmt_Y false (num [a; b; c; d]) = [a; b; c; d]).
Proof.
  intros Ha Hb Hc Hd.
  assert (forallb (fun a => forallb (fun b => forallb (fun c => forallb (fun d =>
            bool_decide (fmt_Y true (num [a; b; c; d]) = [a; b; c; d]) &&
            implb (1000 <=? num [a; b; c; d])%Z
                  (bool_decide (fmt_Y false (num [a; b; c; d]) = [a; b; c; d])))
            ascii_digits) ascii_digits) ascii_digits) ascii_digits = true) as T
    by (vm_compute; reflexivity).
  pose proof (forall_ascii_digits _ (forall_ascii_digits _
                (forall_ascii_digits _ (forall_ascii_digits _ T a Ha) b Hb)
                c Hc) d Hd) as T'.
  cbv beta in T'. apply andb_true_iff in T' as [T1 T2].
  apply bool_decide_eq_true_1 in T1.
  split; [|split; [exact T1|]].
  - exists [a], [b; c; d]. split; [reflexivity|].
    split; [exists a; auto using ascii_digit_isdecimal|].
    exists [b], [c; d]. split; [reflexivity|].
    split; [exists b; auto using ascii_digit_isdecimal|].
    exists [c], [d]. split; [reflexivity|].
    split; [exists c|exists d]; auto using ascii_digit_isdecimal.
  - intros R. apply Z.leb_le in R. rewrite R in T2. cbn [implb] in T2.
    now apply bool_decide_eq_true_1 in T2.
Qed.

Lemma is_canonical_shape s :
  is_canonical s = true ->
  exists d1 d2 m1 m2 y1 y2 y3 y4,
    s = [d1; d2; cdot; m1; m2; cdot; y1; y2; y3; y4] /\
    forallb is_ascii_digit [d1; d2; m1; m2; y1; y2; y3; y4] = true /\
    canonical_date s = mkdate (num [y1; y2; y3; y4]) (num [m1; m2]) (num [d1; d2]) /\
    check_date_fields (num [y1; y2; y3; y4]) (num [m1; m2]) (num [d1; d2]) = true.
Proof.
  unfold is_canonical. rewrite !andb_true_iff, Nat.eqb_eq.
  intros [[[[[[L D] M] Y] P1] P2] C].
  do 10 (destruct s as [|? s]; [discriminate L|]).
  destruct s; [|discriminate L].
  cbn [firstn skipn forallb] in D, M, Y, P1, P2.
  rewrite !andb_true_r in P1, P2.
  apply N.eqb_eq in P1, P2. subst.
  repeat match goal with
         | H : _ && _ = true |- _ => apply andb_true_iff in H as [? ?]
         end.
  do 8 eexists. split; [reflexivity|].
  split.
  { cbn [forallb].
    repeat match goal with
           | H : is_ascii_digit _ = true |- _ => rewrite H; clear H
           end.
    reflexivity. }
  split; [reflexivity|exact C].
Qed.

Lemma Birthday_init_Ok_iff s x :
  Birthday_init s = Ok (mkBirthday x) <-> strptime_dmY s = Some x.
Proof.
  unfold Birthday_init, Birthday_is_valid.
  destruct (strptime_dmY s); split; congruence.
Qed.

Lemma Birthday_init_Raise_iff s :
  Birthday_init s = Raise InvalidFormat_date <-> strptime_dmY s = None.
Proof.
  unfold Birthday_init, Birthday_is_valid.
  destruct (strptime_dmY s); split; congruence.
Qed.

(** C5, as the code has it.  For a canonical DD.MM.YYYY text of a real
    date, [Birthday] construction succeeds with that date, and rendering
    it with DD.MM.YYYY gives the text back if the year has four
    significant digits or the platform pads [%Y].  Construction succeeds,
    with date [x], exactly for the texts day.month.year that the parser
    takes (one or two digits, or a space and a digit, for the day; one or
    two digits for the month; four decimal digits for the year) and that
    name a real date [x]; for every other text it raises InvalidFormat. *)
Theorem C5_birthday_format (pad_year : bool) (s : str) :
  (is_canonical s = true ->
     Birthday_init s = Ok (mkBirthday (canonical_date s)) /\
     (pad_year = true \/ (1000 <= year (canonical_date s))%Z ->
        strftime_dmY pad_year (canonical_date s) = s)) /\
  (forall x, Birthday_init s = Ok (mkBirthday x) <->
     lenient_text s x /\ check_date_fields (year x) (month x) (day x) = true) /\
  (Birthday_init s = Raise InvalidFormat_date <->
     ~ exists x, lenient_text s x /\
                 check_date_fields (year x) (month x) (day x) = true).
Proof.
  split; [|split].
  - intros H. apply is_canonical_shape in H
      as (d1 & d2 & m1 & m2 & y1 & y2 & y3 & y4 & -> & D & -> & C).
    cbn [forallb] in D. rewrite !andb_true_iff in D.
    destruct D as (Hd1 & Hd2 & Hm1 & Hm2 & Hy1 & Hy2 & Hy3 & Hy4 & _).
    pose proof (check_date_fields_bounds _ _ _ C) as (_ & Bm & Bd).
    destruct (day_text_canonical d1 d2 Hd1 Hd2 Bd) as [Ld Fd].
    destruct (month_text_canonical m1 m2 Hm1 Hm2 Bm) as [Lm Fm].
    destruct (year_text_canonical y1 y2 y3 y4 Hy1 Hy2 Hy3 Hy4) as (Ly & Fy & Fy').
    split.
    + apply Birthday_init_Ok_iff, strptime_dmY_spec. split; [|exact C].
      exists [d1; d2], [m1; m2], [y1; y2; y3; y4].
      split; [reflexivity|]. do 3 (split; [assumption|]).
      cbn [year month day].
      rewrite !int_ascii; [auto| | | | | |]; try discriminate;
        cbn [forallb]; rewrite ?andb_true_iff; auto.
    + intros P. unfold strftime_dmY. cbn [year month day].
      rewrite Fd, Fm.
      replace (fmt_Y pad_year (num [y1; y2; y3; y4])) with [y1; y2; y3; y4];
        [reflexivity|].
      destruct P as [->|P]; [now rewrite Fy|].
      destruct pad_year; [now rewrite Fy|now rewrite Fy'].
  - intros x. rewrite Birthday_init_Ok_iff. apply strptime_dmY_spec.
  - rewrite Birthday_init_Raise_iff. split.
    + intros E [x Hx]. apply strptime_dmY_spec in Hx. congruence.
    + intros N. destruct (strptime_dmY s) as [x|] eqn:E; [|reflexivity].
      destruct N. exists x. now apply strptime_dmY_spec.
Qed.

Lemma C5_birthday_format_witness :
  Birthday_init (of_string "05.06.1990") = Ok (mkBirthday (mkdate 1990 6 5)) /\
  strftime_dmY false (mkdate 1990 6 5) = of_string "05.06.1990".
Proof.
  pose proof (C5_birthday_format false (of_string "05.06.1990")) as [H _].
  specialize (H eq_refl) as [H1 H2].
  split; [exact H1|]. apply H2. right. vm_compute. discriminate.
Defined.

(** C5 as stated fails: a text without the leading zeros is accepted (and
    rendered with them); and where [%Y] does not pad, a canonical text
    with a year below 1000 is not rendered back. *)
Lemma C5_counterexample :
  is_canonical (of_string "5.6.1990") = false /\
  Birthday_init (of_string "5.6.1990") = Ok (mkBirthday (mkdate 1990 6 5)) /\
  strftime_dmY true (mkdate 1990 6 5) = of_string "05.06.1990" /\
  is_canonical (of_string "01.01.0990") = true /\
  Birthday_init (of_string "01.01.0990") = Ok (mkBirthday (mkdate 990 1 1)) /\
  strftime_dmY false (mkdate 990 1 1) = of_string "01.01.990".
Proof. repeat split. Qed.

(* ================================================================== *)
(** ** Rendering                                                       *)
(* ================================================================== *)

(** A book with Alice, phone 1112223333, born on 15.03.1990, renders as
    one line. *)
Lemma to_str_alice (pad_year : bool) :
  let alice :=
    snd (add_birthday (of_string "15.03.1990")
           (snd (add_phone (of_string "1112223333")
                   (mkRecord (mkName (of_string "Alice")) [] None)))) in
  to_str pad_year (add_record alice empty)
  = of_string "Contact name: Alice, phones: 1112223333, birthday: 15.03.1990".
Proof. destruct pad_year; reflexivity. Qed.

(* ================================================================== *)
(** ** More on records                                                 *)
(* ================================================================== *)

Lemma record_eta r : mkRecord (name r) (phones r) (birthday r) = r.
Proof. now destruct r. Qed.

Lemma phone_eta p raw : Phone_value p = raw -> p = mkPhone raw.
Proof. destruct p. simpl. now intros ->. Qed.

Lemma find_phone_in_value ps raw p :
  find_phone_in ps raw = Some p -> p = mkPhone raw.
Proof. intros H. apply find_phone_in_Some in H as [_ H]. now apply phone_eta. Qed.

Lemma find_phone_in_app ps qs raw :
  find_phone_in (ps ++ qs) raw
  = match find_phone_in ps raw with
    | Some p => Some p
    | None => find_phone_in qs raw
    end.
Proof.
  induction ps as [|p ps IH]; simpl; [reflexivity|].
  now case_bool_decide.
Qed.

Lemma find_phone_in_present ps raw :
  In raw (map Phone_value ps) -> find_phone_in ps raw = Some (mkPhone raw).
Proof.
  intros H. destruct (find_phone_in ps raw) as [p|] eqn:E.
  - f_equal. now apply find_phone_in_value in E.
  - apply find_phone_in_None in E. unfold no_phone in E.
    rewrite List.Forall_forall in E. apply in_map_iff in H as [p [Hp Hin]].
    now destruct (E p Hin).
Qed.

Lemma occurrences_app raw ps qs :
  occurrences raw (ps ++ qs) = (occurrences raw ps + occurrences raw qs)%nat.
Proof. unfold occurrences. now rewrite List.filter_app, length_app. Qed.

Lemma occurrences_cons raw p ps :
  occurrences raw (p :: ps)
  = ((if bool_decide (Phone_value p = raw) then 1 else 0) + occurrences raw ps)%nat.
Proof. unfold occurrences. simpl. now case_bool_decide. Qed.

Lemma Phone_init_Ok raw p :
  Phone_init raw = Ok p -> p = mkPhone raw /\ Phone_is_valid p = true.
Proof.
  destruct (Phone_init_cases raw) as [[V ->]|[V ->]]; [|discriminate].
  intros [= <-]. auto.
Qed.

(** [add_phone] with a malformed number raises InvalidFormat and leaves
    the record as it was; with a well-formed one it puts the number after
    the phones already there, whether or not the record has that number
    already, and [find_phone] then finds it. *)
Theorem X1_add_phone (raw : str) (self : Record_t) :
  (Phone_is_valid (mkPhone raw) = false ->
     add_phone raw self = (Raise InvalidFormat_phone, self)) /\
  (Phone_is_valid (mkPhone raw) = true ->
     add_phone raw self = (Ok tt, set_phones self (phones self ++ [mkPhone raw])) /\
     find_phone raw (snd (add_phone raw self)) = Some (mkPhone raw) /\
     occurrences raw (phones (snd (add_phone raw self)))
       = S (occurrences raw (phones self))).
Proof.
  unfold add_phone.
  destruct (Phone_init_cases raw) as [[V ->]|[V ->]]; rewrite V;
    (split; [intros; (discriminate || reflexivity)|]); [|discriminate].
  intros _. split; [reflexivity|]. simpl. split.
  - unfold find_phone. simpl. apply find_phone_in_present.
    rewrite map_app, in_app_iff. right. now left.
  - rewrite occurrences_app, occurrences_cons.
    rewrite bool_decide_eq_true_2 by reflexivity.
    unfold occurrences at 2. simpl. lia.
Qed.

Lemma X1_add_phone_witness :
  add_phone (of_string "12ab") rec0 = (Raise InvalidFormat_phone, rec0) /\
  occurrences (of_string "1234567890")
    (phones (snd (add_phone (of_string "1234567890") rec0))) = 2%nat.
Proof.
  split.
  - apply (proj1 (X1_add_phone (of_string "12ab") rec0)). reflexivity.
  - apply (proj2 (X1_add_phone (of_string "1234567890") rec0)). reflexivity.
Defined.

Lemma remove_phone_phones raw self :
  phones (snd (remove_phone raw self))
  = List.filter (fun p => negb (bool_decide (Phone_value p = raw))) (phones self).
Proof.
  simpl. induction (phones self) as [|p ps IH]; [reflexivity|].
  rewrite filter_cons. simpl. case_decide as E.
  - rewrite bool_decide_eq_false_2 by exact E. simpl. now rewrite IH.
  - rewrite bool_decide_eq_true_2 by (destruct (decide (Phone_value p = raw)); tauto).
    simpl. exact IH.
Qed.

Lemma find_phone_in_filter_ne raw q ps :
  q <> raw ->
  find_phone_in
    (List.filter (fun p => negb (bool_decide (Phone_value p = raw))) ps) q
  = find_phone_in ps q.
Proof.
  intros N. induction ps as [|p ps IH]; simpl; [reflexivity|].
  case_bool_decide as E; simpl.
  - rewrite bool_decide_eq_false_2 by congruence. exact IH.
  - now rewrite IH.
Qed.

Lemma filter_no_phone raw ps :
  no_phone ps raw ->
  List.filter (fun p => negb (bool_decide (Phone_value p = raw))) ps = ps.
Proof.
  unfold no_phone. induction 1 as [|p ps Hp _ IH]; simpl; [reflexivity|].
  rewrite bool_decide_eq_false_2 by exact Hp. simpl. now rewrite IH.
Qed.

(** [remove_phone] never raises.  Afterwards no phone has the value
    removed (every copy is gone), every other number is found as before,
    and a record that did not have the number is unchanged. *)
Theorem X2_remove_phone (raw : str) (self : Record_t) :
  fst (remove_phone raw self) = Ok tt /\
  find_phone raw (snd (remove_phone raw self)) = None /\
  occurrences raw (phones (snd (remove_phone raw self))) = 0%nat /\
  (forall q, q <> raw ->
     find_phone q (snd (remove_phone raw self)) = find_phone q self) /\
  (find_phone raw self = None -> snd (remove_phone raw self) = self) /\
  name (snd (remove_phone raw self)) = name self /\
  birthday (snd (remove_phone raw self)) = birthday self.
Proof.
  split; [reflexivity|].
  assert (no_phone (phones (snd (remove_phone raw self))) raw) as NP.
  { rewrite remove_phone_phones. unfold no_phone. apply List.Forall_forall.
    intros p Hp. apply filter_In in Hp as [_ Hp].
    apply negb_true_iff, bool_decide_eq_false_1 in Hp. exact Hp. }
  split; [now apply find_phone_in_None|].
  split.
  { unfold occurrences. induction NP as [|p ps Hp _ IH]; [reflexivity|].
    simpl. now rewrite bool_decide_eq_false_2. }
  split.
  { intros q N. unfold find_phone. rewrite remove_phone_phones.
    now apply find_phone_in_filter_ne. }
  split; [|split; reflexivity].
  intros H. apply find_phone_in_None in H.
  pose proof (remove_phone_phones raw self) as E.
  rewrite (filter_no_phone _ _ H) in E.
  rewrite <- (record_eta (snd (remove_phone raw self))), E.
  cbn [remove_phone snd set_phones name birthday]. apply record_eta.
Qed.

Lemma X2_remove_phone_witness :
  snd (remove_phone (of_string "5550001111") rec0) = rec0.
Proof.
  apply (proj1 (proj2 (proj2 (proj2 (proj2
           (X2_remove_phone (of_string "5550001111") rec0)))))).
  reflexivity.
Defined.

Lemma edit_phone_Ok_shape old_phone new_phone self :
  fst (edit_phone old_phone new_phone self) = Ok tt ->
  exists l1 p l2,
    phones self = l1 ++ p :: l2 /\ Phone_value p = old_phone /\
    no_phone l1 old_phone /\ Phone_is_valid (mkPhone new_phone) = true /\
    snd (edit_phone old_phone new_phone self)
    = set_phones self (l1 ++ mkPhone new_phone :: l2).
Proof.
  intros H.
  destruct (find_phone_in (phones self) old_phone) as [p0|] eqn:F.
  - apply find_phone_in_Some in F as [Hin Hv].
    assert (In old_phone (map Phone_value (phones self))) as Hin'
      by (apply in_map_iff; eauto).
    destruct (first_phone_exists _ _ Hin') as [k Hk].
    rewrite (edit_phone_found k) in * by exact Hk.
    destruct (Phone_init_cases new_phone) as [[V E]|[V E]]; rewrite E in *;
      [|discriminate].
    destruct Hk as [[p [Hp Hpv]] Hmin].
    exists (take k (phones self)), p, (drop (S k) (phones self)).
    split; [symmetry; now apply take_drop_middle|].
    split; [exact Hpv|]. split.
    + unfold no_phone. apply List.Forall_forall. intros q Hq.
      apply list_elem_of_In, list_elem_of_lookup in Hq as [j Hj].
      pose proof (lookup_lt_Some _ _ _ Hj) as Lj. rewrite length_take in Lj.
      rewrite lookup_take_lt in Hj by lia. apply (Hmin j q); [lia|exact Hj].
    + split; [exact V|]. simpl. f_equal.
      apply insert_take_drop. now apply lookup_lt_Some in Hp.
  - apply find_phone_in_None in F.
    rewrite edit_phone_not_found in H by exact F. discriminate.
Qed.

Lemma occurrences_no_phone raw ps : no_phone ps raw -> occurrences raw ps = 0%nat.
Proof.
  unfold occurrences. induction 1 as [|p ps Hp _ IH]; [reflexivity|].
  simpl. now rewrite bool_decide_eq_false_2.
Qed.

(** A successful [edit_phone old new] keeps the number of phones, makes
    [new] a phone of the record and, when the two numbers differ, takes
    away exactly one copy of [old] and adds exactly one of [new]: a
    number the record holds twice is still there after one edit. *)
Theorem X3_edit_phone_counts (old_phone new_phone : str) (self : Record_t) :
  fst (edit_phone old_phone new_phone self) = Ok tt ->
  let r := snd (edit_phone old_phone new_phone self) in
  length (phones r) = length (phones self) /\
  find_phone new_phone r = Some (mkPhone new_phone) /\
  name r = name self /\ birthday r = birthday self /\
  (old_phone <> new_phone ->
     S (occurrences old_phone (phones r)) = occurrences old_phone (phones self) /\
     occurrences new_phone (phones r) = S (occurrences new_phone (phones self))).
Proof.
  intros H. apply edit_phone_Ok_shape in H
    as (l1 & p & l2 & E & Hp & NP & V & ->).
  simpl. rewrite E. split; [now rewrite !length_app|].
  split.
  { unfold find_phone. simpl. apply find_phone_in_present.
    rewrite map_app, in_app_iff. right. now left. }
  split; [reflexivity|]. split; [reflexivity|].
  intros N. rewrite !occurrences_app, !occurrences_cons. simpl.
  rewrite (bool_decide_eq_true_2 _ Hp).
  rewrite (bool_decide_eq_false_2 (new_phone = old_phone)) by congruence.
  rewrite (bool_decide_eq_false_2 (Phone_value p = new_phone)) by congruence.
  rewrite (bool_decide_eq_true_2 (new_phone = new_phone)) by reflexivity.
  lia.
Qed.

Lemma X3_edit_phone_counts_witness :
  let twice := snd (add_phone (of_string "1234567890") rec0) in
  find_phone (of_string "1234567890")
    (snd (edit_phone (of_string "1234567890") (of_string "0987654321") twice))
  = Some (mkPhone (of_string "1234567890")) /\
  length (phones (snd (edit_phone (of_string "1234567890")
                         (of_string "0987654321") twice))) = 2%nat.
Proof.
  pose proof (X3_edit_phone_counts (of_string "1234567890")
                (of_string "0987654321")
                (snd (add_phone (of_string "1234567890") rec0)) eq_refl)
    as [L _].
  split; [reflexivity|exact L].
Defined.

Lemma Birthday_init_valid raw b :
  Birthday_init raw = Ok b -> valid_date (Birthday_value b).
Proof.
  destruct b as [x]. intros H.
  apply Birthday_init_Ok_iff, strptime_dmY_spec in H. apply H.
Qed.

Lemma run_op_ok r op : record_ok r -> record_ok (run_op r op).
Proof.
  intros (Hn & Hp & Hb). unfold record_ok. rewrite run_op_name.
  split; [exact Hn|].
  destruct op as [raw|raw|o n|raw|raw| ]; simpl; auto.
  - unfold add_phone. destruct (Phone_init raw) as [p|] eqn:E; simpl; auto.
    split; [|exact Hb]. apply Forall_app. split; [exact Hp|].
    constructor; [|constructor]. now apply Phone_init_Ok in E.
  - split; [|exact Hb]. rewrite List.Forall_forall in *.
    intros p Hin. apply Hp.
    apply list_elem_of_In, list_elem_of_filter in Hin as [_ Hin].
    now apply list_elem_of_In.
  - destruct (fst (edit_phone o n r)) as [[]|e] eqn:F.
    + apply edit_phone_Ok_shape in F as (l1 & p & l2 & E & _ & _ & V & ->).
      simpl. split; [|exact Hb]. rewrite E in Hp.
      apply Forall_app in Hp as [H1 H2]. apply Forall_app.
      split; [exact H1|]. inversion H2; subst. now constructor.
    + assert (snd (edit_phone o n r) = r) as ->; [|auto].
      destruct (find_phone_in (phones r) o) as [p0|] eqn:Q.
      * apply find_phone_in_Some in Q as [Hin Hv].
        assert (In o (map Phone_value (phones r))) as Hin'
          by (apply in_map_iff; eauto).
        destruct (first_phone_exists _ _ Hin') as [k Hk].
        rewrite (edit_phone_found k) in * by exact Hk.
        now destruct (Phone_init n).
      * apply find_phone_in_None in Q. now rewrite edit_phone_not_found.
  - unfold add_birthday. destruct (Birthday_init raw) as [b|] eqn:E; simpl; auto.
    destruct (birthday r) eqn:B; simpl; [rewrite B; auto|].
    split; [exact Hp|]. intros b' Hb'. injection Hb' as <-.
    now apply Birthday_init_valid in E.
Qed.

(** A record made by [Record] and then used through its methods, in any
    order and whether the calls succeed or raise, keeps the name it was
    made with; that name is not blank, every phone it holds has exactly
    ten digit characters, and its birthday, if set, is a real date. *)
Theorem X4_record_invariant (raw : str) (r : Record_t) (ops : list record_op) :
  Record_init raw = Ok r ->
  name (run_ops ops r) = mkName raw /\
  record_ok (run_ops ops r) /\
  Forall (fun p => length (Phone_value p) = 10%nat /\
                   Forall (fun c => isdigit_char c = true) (Phone_value p))
         (phones (run_ops ops r)).
Proof.
  intros H. unfold Record_init in H.
  destruct (Name_init_cases raw) as [[E N]|[E N]]; rewrite N in H; [discriminate|].
  injection H as <-.
  assert (forall r0, record_ok r0 ->
            name (run_ops ops r0) = name r0 /\ record_ok (run_ops ops r0)) as G.
  { unfold run_ops. induction ops as [|op ops IH]; intros r0 H0; simpl; [auto|].
    destruct (IH (run_op r0 op) (run_op_ok _ _ H0)) as [A B].
    rewrite A, run_op_name. auto. }
  destruct (G (mkRecord (mkName raw) [] None)) as [A B].
  { split; [exact E|]. split; [constructor|discriminate]. }
  split; [exact A|]. split; [exact B|].
  destruct B as (_ & Hp & _). rewrite List.Forall_forall in *.
  intros p Hin. specialize (Hp p Hin). destruct p as [v].
  now apply Phone_is_valid_iff in Hp.
Qed.

Lemma X4_record_invariant_witness :
  name (run_ops [OpAddPhone (of_string "1112223333");
                 OpEditPhone (of_string "1112223333") (of_string "x");
                 OpAddBirthday (of_string "31.02.2000")]
          (mkRecord (mkName (of_string "Alice")) [] None))
  = mkName (of_string "Alice").
Proof.
  apply (X4_record_invariant (of_string "Alice")
           (mkRecord (mkName (of_string "Alice")) [] None)).
  reflexivity.
Defined.

(* ================================================================== *)
(** ** More on dates                                                   *)
(* ================================================================== *)

Lemma forall_below (P : Z -> bool) (n : Z) :
  forallb (fun k => P (Z.of_nat k)) (seq 0 (Z.to_nat n)) = true ->
  forall v, (0 <= v < n)%Z -> P v = true.
Proof.
  intros H v Hv. rewrite forallb_forall in H.
  specialize (H (Z.to_nat v)). rewrite Z2Nat.id in H by lia.
  apply H, in_seq. lia.
Qed.

Lemma fmt_02_shape v :
  (0 <= v <= 99)%Z ->
  exists a b, fmt_02 v = [a; b] /\ is_ascii_digit a = true /\
              is_ascii_digit b = true /\ num [a; b] = v.
Proof.
  intros R.
  pose (P := fun v => match fmt_02 v with
                      | [a; b] => is_ascii_digit a && is_ascii_digit b &&
                                  (num [a; b] =? v)%Z
                      | _ => false
                      end).
  assert (P v = true) as T.
  { apply (forall_below P 100); [vm_compute; reflexivity|lia]. }
  unfold P in T.
  destruct (fmt_02 v) as [|a [|b [|? ?]]]; try discriminate.
  rewrite !andb_true_iff, Z.eqb_eq in T. exists a, b. tauto.
Qed.

Lemma fmt_Y_shape pad_year v :
  (0 <= v <= 9999)%Z ->
  Forall (fun c => is_ascii_digit c = true) (fmt_Y pad_year v) /\
  ((pad_year = true \/ 1000 <= v)%Z ->
     exists a b c d, fmt_Y pad_year v = [a; b; c; d] /\ num [a; b; c; d] = v) /\
  (pad_year = false -> (v < 1000)%Z -> (length (fmt_Y pad_year v) < 4)%nat).
Proof.
  intros R.
  pose (P := fun p v =>
               let t := fmt_Y p v in
               forallb is_ascii_digit t &&
               (if p || (1000 <=? v)%Z
                then (length t =? 4)%nat && (num t =? v)%Z
                else (length t <? 4)%nat)).
  assert (P pad_year v = true) as T.
  { destruct pad_year;
      (apply (forall_below (P _) 10000); [vm_compute; reflexivity|lia]). }
  unfold P in T. cbv zeta in T. apply andb_true_iff in T as [D S].
  split; [apply List.Forall_forall; now rewrite forallb_forall in D|].
  split.
  - intros Q.
    assert (pad_year || (1000 <=? v)%Z = true) as B.
    { destruct Q as [->|Q]; [reflexivity|].
      apply Z.leb_le in Q. rewrite Q. apply orb_true_r. }
    rewrite B in S. apply andb_true_iff in S as [L E].
    apply Nat.eqb_eq in L. apply Z.eqb_eq in E.
    destruct (fmt_Y pad_year v) as [|a [|b [|c [|d [|? ?]]]]]; try discriminate.
    now exists a, b, c, d.
  - intros -> L. assert ((1000 <=? v)%Z = false) as B by (apply Z.leb_gt; lia).
    rewrite B in S. simpl in S. now apply Nat.ltb_lt in S.
Qed.

Lemma ascii_digit_not_dot c : is_ascii_digit c = true -> c <> cdot.
Proof. intros H. ascii_digit_split H; discriminate. Qed.

Lemma digits_no_dot l :
  Forall (fun c => is_ascii_digit c = true) l -> ~ In cdot l.
Proof.
  rewrite List.Forall_forall. intros H Hin.
  now apply (ascii_digit_not_dot _ (H _ Hin)).
Qed.

(** A valid date is parsed back from its rendering whenever the year is
    printed with four digits: always where the platform pads [%Y], and for
    the years from 1000 on elsewhere.  Where [%Y] is not padded, the
    rendering of a date before the year 1000 is refused by [Birthday]. *)
Theorem X5_render_then_parse (pad_year : bool) (x : date) :
  valid_date x ->
  ((pad_year = true \/ 1000 <= year x)%Z ->
     Birthday_init (strftime_dmY pad_year x) = Ok (mkBirthday x)) /\
  (pad_year = false -> (year x < 1000)%Z ->
     Birthday_init (strftime_dmY pad_year x) = Raise InvalidFormat_date).
Proof.
  intros V. unfold valid_date in V.
  pose proof (check_date_fields_bounds _ _ _ V) as (By & Bm & Bd).
  destruct (fmt_02_shape (day x)) as (d1 & d2 & Ed & Hd1 & Hd2 & Nd); [lia|].
  destruct (fmt_02_shape (month x)) as (m1 & m2 & Em & Hm1 & Hm2 & Nm); [lia|].
  destruct (fmt_Y_shape pad_year (year x)) as (Dy & Y4 & Y3); [lia|].
  rewrite <- Nd in Bd. rewrite <- Nm in Bm.
  destruct (day_text_canonical d1 d2 Hd1 Hd2 Bd) as [Ld _].
  destruct (month_text_canonical m1 m2 Hm1 Hm2 Bm) as [Lm _].
  unfold strftime_dmY. rewrite Ed, Em.
  change (of_string ".") with [cdot]. split.
  - intros P. destruct (Y4 P) as (a & b & c & d & Ey & Ny).
    rewrite Ey in *. inversion Dy as [|? ? Ha Dy1]; subst.
    inversion Dy1 as [|? ? Hb Dy2]; subst.
    inversion Dy2 as [|? ? Hc Dy3]; subst.
    inversion Dy3 as [|? ? Hd _]; subst.
    destruct (year_text_canonical a b c d Ha Hb Hc Hd) as [Ly _].
    apply Birthday_init_Ok_iff, strptime_dmY_spec. split; [|exact V].
    exists [d1; d2], [m1; m2], [a; b; c; d].
    split; [reflexivity|]. do 3 (split; [assumption|]).
    rewrite <- Ny, <- Nm, <- Nd.
    rewrite !int_ascii; [auto| | | | | |]; try discriminate;
      cbn [forallb]; rewrite ?andb_true_iff; auto.
  - intros E L. apply Birthday_init_Raise_iff.
    destruct (strptime_dmY _) as [x'|] eqn:S; [exfalso|reflexivity].
    apply strptime_dmY_spec in S as [(d & m & y & E' & Ld' & Lm' & Ly' & _) _].
    simpl app in E'.
    apply (split_at_dot [d1; d2] d) in E' as [<- E'];
      [|apply digits_no_dot; repeat constructor; assumption
       |now apply lang_re_d_no_dot].
    apply (split_at_dot [m1; m2] m) in E' as [<- E'];
      [|apply digits_no_dot; repeat constructor; assumption
       |now apply lang_re_m_no_dot].
    apply lang_re_Y_length in Ly'. rewrite <- E' in Ly'.
    specialize (Y3 E L). lia.
Qed.

Lemma X5_render_then_parse_witness :
  Birthday_init (strftime_dmY false (mkdate 1990 6 5))
    = Ok (mkBirthday (mkdate 1990 6 5)) /\
  Birthday_init (strftime_dmY false (mkdate 990 1 1)) = Raise InvalidFormat_date.
Proof.
  split.
  - apply (proj1 (X5_render_then_parse false (mkdate 1990 6 5) eq_refl)).
    right. vm_compute. discriminate.
  - apply (proj2 (X5_render_then_parse false (mkdate 990 1 1) eq_refl));
      reflexivity.
Defined.


Lemma check_date_fields_iff y m d :
  check_date_fields y m d = true <->
  (1 <= y <= 9999 /\ 1 <= m <= 12 /\ 1 <= d <= _days_in_month y m)%Z.
Proof.
  unfold check_date_fields, MINYEAR, MAXYEAR.
  rewrite !andb_true_iff, !Z.leb_le. tauto.
Qed.

Lemma days_in_month_other_year y y2 m :
  m <> 2%Z -> _days_in_month y m = _days_in_month y2 m.
Proof.
  intros N. unfold _days_in_month.
  now rewrite (proj2 (Z.eqb_neq m 2) N).
Qed.

Lemma days_in_february y :
  _days_in_month y 2 = if _is_leap y then 29%Z else 28%Z.
Proof. unfold _days_in_month. simpl. now destruct (_is_leap y). Qed.

(** Moving a real date to another year ([replace(year=..)]) keeps month
    and day, and fails in one case only: 29 February moved to a year that
    is not a leap year. *)
Theorem X6_replace_year (x : date) (y : Z) :
  valid_date x -> (1 <= y <= 9999)%Z ->
  (replace_year x y = None <->
     month x = 2%Z /\ day x = 29%Z /\ _is_leap y = false) /\
  (forall x2, replace_year x y = Some x2 ->
     x2 = mkdate y (month x) (day x) /\ valid_date x2).
Proof.
  intros V R. unfold valid_date in V. apply check_date_fields_iff in V.
  unfold replace_year, date_new.
  destruct (check_date_fields y (month x) (day x)) eqn:C.
  - split; [|intros x2 [= <-]; auto].
    split; [discriminate|]. intros (M & D & L). exfalso.
    apply check_date_fields_iff in C. rewrite M, days_in_february, L in C. lia.
  - split; [|discriminate]. split; [intros _|reflexivity].
    destruct (Z.eq_dec (month x) 2%Z) as [M|M].
    + rewrite M, days_in_february in V.
      assert (~ (1 <= day x <= _days_in_month y 2)%Z) as N.
      { intros N. rewrite M in C.
        rewrite (proj2 (check_date_fields_iff y 2%Z (day x))) in C; [discriminate|].
        lia. }
      rewrite days_in_february in N.
      destruct (_is_leap (year x)), (_is_leap y); try lia; repeat split; lia.
    + exfalso. rewrite (proj2 (check_date_fields_iff _ _ _)) in C; [discriminate|].
      rewrite (days_in_month_other_year y (year x)) by exact M. lia.
Qed.

Lemma X6_replace_year_witness :
  replace_year (mkdate 2000 2 29) 2023 = None /\
  replace_year (mkdate 2000 2 29) 2024 = Some (mkdate 2024 2 29).
Proof.
  pose proof (X6_replace_year (mkdate 2000 2 29) 2023 eq_refl ltac:(lia)) as [A _].
  split; [apply A; repeat split|reflexivity].
Defined.

(** [get_upcoming_birthdays] either returns, in the order of the book, one
    entry for each record whose birthday moved to the year of today lies
    0 to 7 days ahead, and nothing else; or, when some birthday does not
    exist in the year of today, it raises ValueError and returns nothing,
    whatever the other records are. *)
Theorem X7_upcoming_birthdays_outcome (pad_year : bool) (tdate : date)
    (self : AddressBook.t) :
  (replaceable tdate (Dict.values self) ->
     get_upcoming_birthdays pad_year tdate self
     = Ok (map (upcoming_of pad_year tdate)
               (List.filter (in_window tdate) (Dict.values self)))) /\
  (~ replaceable tdate (Dict.values self) ->
     get_upcoming_birthdays pad_year tdate self
     = Raise (ValueError "day is out of range for month")).
Proof.
  unfold get_upcoming_birthdays. split; intros H.
  - now rewrite upcoming_loop_ok.
  - now apply upcoming_loop_raises.
Qed.

Lemma X7_upcoming_birthdays_outcome_witness :
  get_upcoming_birthdays true (mkdate 2024 6 1) book_june
  = Ok [mkUpcoming (of_string "Ann") (of_string "Wednesday, 05.06.2024")] /\
  get_upcoming_birthdays true (mkdate 2023 6 1) book_leap
  = Raise (ValueError "day is out of range for month").
Proof.
  split.
  - apply (proj1 (X7_upcoming_birthdays_outcome true (mkdate 2024 6 1) book_june)).
    unfold replaceable.
    repeat (constructor; [right; vm_compute; discriminate|]). constructor.
  - apply (proj2 (X7_upcoming_birthdays_outcome true (mkdate 2023 6 1) book_leap)).
    unfold replaceable. intros H. inversion H as [|? ? [A|A] _]; subst.
    + vm_compute in A. discriminate.
    + apply A. reflexivity.
Defined.




(* ================================================================== *)
(** ** More on the address book                                        *)
(* ================================================================== *)

Lemma setitem_absent {V} k (v : V) d :
  Dict.get k d = None -> Dict.setitem k v d = d ++ [(k, v)].
Proof.
  induction d as [|[k' v'] d IH]; simpl; [reflexivity|].
  case_bool_decide as E; [discriminate|]. intros H. now rewrite IH.
Qed.

Lemma pop_last {V} k (v : V) d :
  Dict.get k d = None -> Dict.pop k (d ++ [(k, v)]) = (Some v, d).
Proof.
  induction d as [|[k' v'] d IH]; simpl.
  - now rewrite bool_decide_eq_true_2.
  - case_bool_decide as E; [discriminate|]. intros H. now rewrite IH.
Qed.

Lemma pop_setitem_present {V} k (v : V) d :
  Dict.get k d <> None ->
  Dict.pop k (Dict.setitem k v d) = (Some v, snd (Dict.pop k d)).
Proof.
  induction d as [|[k' v'] d IH]; simpl; [congruence|].
  case_bool_decide as E; simpl.
  - now rewrite bool_decide_eq_true_2.
  - intros H. rewrite bool_decide_eq_false_2 by exact E.
    rewrite (IH H). now destruct (Dict.pop k d).
Qed.

(** Adding a record under a name the book does not have makes the book
    one entry longer, and deleting that name again gives back the very
    book; adding under a name the book has keeps the number and order of
    the entries, and deleting the name afterwards leaves what deleting it
    from the original book leaves. *)
Theorem X9_add_then_delete (record : Record_t) (self : AddressBook.t) :
  let nm := Name_value (name record) in
  (find nm self = None ->
     length (add_record record self) = S (length self) /\
     delete nm (add_record record self) = (Ok tt, self)) /\
  (find nm self <> None ->
     length (add_record record self) = length self /\
     Dict.keys (add_record record self) = Dict.keys self /\
     delete nm (add_record record self) = (Ok tt, snd (delete nm self))).
Proof.
  unfold find, add_record, delete. cbv zeta. split; intros H.
  - rewrite (setitem_absent _ _ _ H), length_app, pop_last by exact H.
    simpl. split; [lia|reflexivity].
  - assert (In (Name_value (name record)) (Dict.keys self)) as I.
    { destruct (in_dec (list_eq_dec N.eq_dec) (Name_value (name record))
                  (Dict.keys self)) as [I|I]; [exact I|].
      now apply get_None_iff in I. }
    split; [now apply length_setitem_present|].
    split; [now apply keys_setitem_present|].
    rewrite pop_setitem_present by exact H.
    now destruct (Dict.pop (Name_value (name record)) self) as [[?|] ?].
Qed.

Lemma X9_add_then_delete_witness :
  delete (of_string "Bob")
    (add_record (mkRecord (mkName (of_string "Bob")) [] None) book0)
  = (Ok tt, book0) /\
  length (add_record rec1 book0) = length book0.
Proof.
  split.
  - apply (proj1 (X9_add_then_delete
                    (mkRecord (mkName (of_string "Bob")) [] None) book0)).
    reflexivity.
  - apply (proj2 (X9_add_then_delete rec1 book0)). discriminate.
Defined.

(* ------------------------------------------------------------------ *)
(** *** Rendering                                                      *)
(* ------------------------------------------------------------------ *)

Lemma str_of_uint_digits u :
  Forall (fun c => is_ascii_digit c = true) (str_of_uint u).
Proof. induction u; simpl; constructor; auto. Qed.

Lemma str_of_Z_nonempty z : str_of_Z z <> [].
Proof.
  unfold str_of_Z. destruct (Z.to_N z) as [|p]; simpl; [discriminate|].
  pose proof (DecimalPos.Unsigned.to_uint_nonnil p) as N.
  destruct (Pos.to_uint p); simpl; congruence.
Qed.

Lemma fmt_Y_digits pad_year z :
  fmt_Y pad_year z <> [] /\
  Forall (fun c => is_ascii_digit c = true) (fmt_Y pad_year z).
Proof.
  pose proof (str_of_Z_nonempty z) as N.
  pose proof (str_of_uint_digits (N.to_uint (Z.to_N z))) as D.
  fold (str_of_Z z) in D. unfold fmt_Y, zfill.
  destruct pad_year; [|auto]. split.
  - destruct (repeat 48%N _); simpl; [exact N|discriminate].
  - apply Forall_app. split; [|exact D].
    apply List.Forall_forall. intros c Hc. now apply repeat_spec in Hc as ->.
Qed.

Lemma head_rev_app {A} (l1 l2 : list A) :
  l2 <> [] -> head (rev (l1 ++ l2)) = head (rev l2).
Proof.
  intros N. rewrite rev_app_distr.
  destruct (rev l2) eqn:E; [|reflexivity].
  apply (f_equal (@rev A)) in E. rewrite rev_involutive in E. contradiction.
Qed.

Lemma head_rev_digits l :
  l <> [] -> Forall (fun c => is_ascii_digit c = true) l ->
  exists b, head (rev l) = Some b /\ isspace b = false.
Proof.
  intros N D. destruct (rev l) as [|b t] eqn:E.
  - apply (f_equal (@rev _)) in E. rewrite rev_involutive in E. contradiction.
  - exists b. split; [reflexivity|]. apply ascii_digit_not_space.
    rewrite List.Forall_forall in D. apply D, in_rev. rewrite E. now left.
Qed.

Lemma Record_str_tight pad_year r : tight (Record_str pad_year r).
Proof.
  unfold tight, Record_str. exists 67%N.
  assert (exists b, head (rev (match birthday r with
                               | Some b => strftime_dmY pad_year (Birthday_value b)
                               | None => of_string "N/A"
                               end)) = Some b /\ isspace b = false /\
                    match birthday r with
                    | Some b => strftime_dmY pad_year (Birthday_value b)
                    | None => of_string "N/A"
                    end <> []) as (b & Hb & Sb & Ne).
  { destruct (birthday r) as [x|].
    - destruct (fmt_Y_digits pad_year (year (Birthday_value x))) as [N D].
      destruct (head_rev_digits _ N D) as (b & Hb & Sb).
      exists b. unfold strftime_dmY. rewrite !app_assoc, head_rev_app by exact N.
      repeat split; auto. intros E. apply app_eq_nil in E as [_ E]. contradiction.
    - exists 65%N. repeat split. discriminate. }
  exists b. split; [reflexivity|].
  rewrite !app_assoc, head_rev_app by exact Ne. auto.
Qed.

Lemma lstrip_tight t a : head t = Some a -> isspace a = false -> lstrip t = t.
Proof. destruct t; simpl; [discriminate|]. now intros [= ->] ->. Qed.

Lemma strip_line t : tight t -> strip (t ++ [10%N]) = t.
Proof.
  intros (a & b & Ha & Hb & Sa & Sb). unfold strip, rstrip.
  rewrite (lstrip_tight (t ++ [10%N]) a); [|now destruct t|exact Sa].
  rewrite rev_app_distr. simpl.
  rewrite (lstrip_tight (rev t) b Hb Sb). apply rev_involutive.
Qed.

Lemma concat_lines (ls : list (list N)) :
  ls <> [] ->
  concat (map (fun l => l ++ [10%N]) ls) = join [10%N] ls ++ [10%N].
Proof.
  induction ls as [|l ls IH]; [congruence|]. intros _.
  destruct ls as [|l2 ls]; [simpl; now rewrite app_nil_r|].
  change (join [10%N] (l :: l2 :: ls)) with (l ++ [10%N] ++ join [10%N] (l2 :: ls)).
  cbn [map concat]. cbn [map concat] in IH. rewrite IH by discriminate.
  now rewrite <- !app_assoc.
Qed.

Lemma join_tight (ls : list (list N)) :
  ls <> [] -> Forall tight ls -> tight (join [10%N] ls).
Proof.
  induction ls as [|l ls IH]; [congruence|]. intros _ F.
  inversion F as [|? ? Hl Hls]; subst.
  destruct ls as [|l2 ls]; [exact Hl|].
  change (join [10%N] (l :: l2 :: ls)) with (l ++ [10%N] ++ join [10%N] (l2 :: ls)).
  destruct Hl as (a & _ & Ha & _ & Sa & _).
  destruct (IH ltac:(discriminate) Hls) as (_ & b & _ & Hb & _ & Sb).
  exists a, b. split; [now destruct l|].
  split; [|auto]. rewrite app_assoc, head_rev_app; [exact Hb|].
  intros E. rewrite E in Hb. discriminate.
Qed.

(** The text of a book is the texts of its records, in the order of the
    book, with one newline between two of them and none at the end; the
    empty book gives the empty text.  (The final [strip] removes the last
    newline and nothing else, since a record's text begins with "Contact"
    and ends with a digit or "N/A".) *)
Theorem X10_book_text (pad_year : bool) (self : AddressBook.t) :
  to_str pad_year self
  = join [10%N] (map (Record_str pad_year) (Dict.values self)).
Proof.
  unfold to_str. rewrite <- (map_map (Record_str pad_year) (fun l => l ++ [10%N])).
  destruct (map (Record_str pad_year) (Dict.values self)) as [|l ls] eqn:E;
    [reflexivity|].
  rewrite concat_lines by discriminate. apply strip_line, join_tight; [discriminate|].
  rewrite <- E. apply List.Forall_forall. intros t Ht.
  apply in_map_iff in Ht as [r [<- _]]. apply Record_str_tight.
Qed.

(* ================================================================== *)
(** ** The command layer                                               *)
(* ================================================================== *)

Lemma split_from_tokens s : forall word,
  Forall (fun c => isspace c = false) word ->
  Forall (fun t => t <> [] /\ Forall (fun c => isspace c = false) t)
         (split_from word s).
Proof.
  induction s as [|c s IH]; intros word W; simpl.
  - destruct word; constructor; [|constructor]. split; [discriminate|exact W].
  - destruct (isspace c) eqn:E.
    + destruct word as [|w word]; [apply IH; constructor|].
      constructor; [split; [discriminate|exact W]|apply IH; constructor].
    + apply IH. apply Forall_app. split; [exact W|]. now repeat constructor.
Qed.

Lemma split_from_blank s word :
  all_whitespace s = true ->
  split_from word s = match word with [] => [] | _ => [word] end.
Proof.
  unfold all_whitespace. revert word.
  induction s as [|c s IH]; intros word H; simpl in *; [reflexivity|].
  apply andb_true_iff in H as [-> H].
  destruct word; now rewrite IH.
Qed.

Lemma split_from_word s : forall w : list N, w <> [] -> split_from w s <> [].
Proof.
  induction s as [|c s IH]; intros w N; simpl; [now destruct w|].
  destruct (isspace c); [now destruct w|]. apply IH. now destruct w.
Qed.

Lemma split_from_not_blank s : forall word,
  all_whitespace s = false -> split_from word s <> [].
Proof.
  unfold all_whitespace.
  induction s as [|c s IH]; intros word H; simpl in *; [discriminate|].
  destruct (isspace c); simpl in H.
  - destruct word; [now apply IH|discriminate].
  - apply split_from_word. now destruct word.
Qed.

Lemma token_facts t :
  t <> [] -> Forall (fun c => isspace c = false) t ->
  strip t = t /\ Name_init t = Ok (mkName t).
Proof.
  intros N F.
  assert (strip t = t) as S.
  { apply strip_id. rewrite forallb_forall. rewrite List.Forall_forall in F.
    intros c Hc. now rewrite (F c Hc). }
  split; [exact S|].
  destruct (Name_init_cases t) as [[E _]|[_ E]]; [congruence|exact E].
Qed.

(** [parse_input] answers a blank line with the text of the unpacking
    error (it does not raise).  Any other line is cut at its whitespace:
    the first word, lower-cased, is the command, the other words are the
    arguments in order; no word is empty or holds whitespace, so stripping
    the command word changes nothing and every argument is fit to be a
    [Name]. *)
Theorem X11_parse_input (lower : list N -> list N) (user_input : str) :
  (all_whitespace user_input = true ->
     parse_input lower user_input
     = CReturn (VStr (of_string
         "Value error: not enough values to unpack (expected at least 1, got 0)"))) /\
  (all_whitespace user_input = false ->
     exists cmd args,
       split user_input = cmd :: args /\
       parse_input lower user_input = CReturn (VTuple (lower cmd :: args)) /\
       Forall (fun t => t <> [] /\ Forall (fun c => isspace c = false) t /\
                        strip t = t /\ Name_init t = Ok (mkName t))
              (cmd :: args)).
Proof.
  unfold parse_input, parse_input_body, split. split; intros H.
  - now rewrite split_from_blank.
  - pose proof (split_from_not_blank user_input [] H) as N.
    pose proof (split_from_tokens user_input [] ltac:(constructor)) as T.
    destruct (split_from [] user_input) as [|cmd args]; [congruence|].
    exists cmd, args. split; [reflexivity|].
    assert (Forall (fun t => t <> [] /\ Forall (fun c => isspace c = false) t /\
                             strip t = t /\ Name_init t = Ok (mkName t))
                   (cmd :: args)) as T'.
    { rewrite List.Forall_forall in *. intros t Ht. destruct (T t Ht) as [A B].
      destruct (token_facts t A B). auto. }
    split; [|exact T'].
    simpl. inversion T' as [|? ? (_ & _ & S & _) _]. now rewrite S.
Qed.

Lemma X11_parse_input_witness :
  parse_input (fun s => s) (of_string "  ")
  = CReturn (VStr (of_string
      "Value error: not enough values to unpack (expected at least 1, got 0)")) /\
  split (of_string " add  Bob 1234567890 ")
  = [of_string "add"; of_string "Bob"; of_string "1234567890"].
Proof.
  split.
  - apply (proj1 (X11_parse_input (fun s => s) (of_string "  "))). reflexivity.
  - destruct (proj2 (X11_parse_input (fun s => s)
                       (of_string " add  Bob 1234567890 ")) eq_refl)
      as (cmd & args & E & _).
    reflexivity.
Defined.

Lemma setitem_same {V} k (v : V) d :
  Dict.get k d = Some v -> Dict.setitem k v d = d.
Proof.
  induction d as [|[k' v'] d IH]; simpl; [discriminate|].
  case_bool_decide as E; [now intros [= ->]|]. intros H. now rewrite IH.
Qed.

Lemma contains_false nm book : contains nm book = false <-> find nm book = None.
Proof. unfold contains, find. destruct (Dict.get nm book); split; congruence. Qed.

Lemma edit_phone_fail_unchanged o n r e :
  fst (edit_phone o n r) = Raise e -> snd (edit_phone o n r) = r.
Proof.
  destruct (find_phone_in (phones r) o) as [p0|] eqn:Q.
  - apply find_phone_in_Some in Q as [Hin Hv].
    assert (In o (map Phone_value (phones r))) as Hin'
      by (apply in_map_iff; eauto).
    destruct (first_phone_exists _ _ Hin') as [k Hk].
    rewrite (edit_phone_found k) by exact Hk.
    now destruct (Phone_init n).
  - apply find_phone_in_None in Q. now rewrite edit_phone_not_found.
Qed.

Lemma edit_phone_head r p0 rest phone :
  phones r = p0 :: rest ->
  edit_phone (Phone_value p0) phone r
  = match Phone_init phone with
    | Ok p => (Ok tt, set_phones r (p :: rest))
    | Raise e => (Raise e, r)
    end.
Proof.
  intros E. rewrite (edit_phone_found 0).
  - rewrite E. reflexivity.
  - rewrite E. split; [exists p0; auto|]. intros j q Hj. lia.
Qed.

(** [add_contact] with a new name and a well-formed number answers
    "Contact added." and puts a record with that one phone and no birthday
    at the end of the book.  In every other case the book is unchanged:
    a name the book has gives "Already have" (the number is not even
    looked at), a malformed number or a blank name gives the text of the
    ValueError, and so does any number of arguments other than two. *)
Theorem X12_add_contact (args : list str) (book : AddressBook.t) :
  (forall nm phone, args = [nm; phone] ->
     (find nm book <> None ->
        add_contact args book = (text "Already have", book)) /\
     (find nm book = None -> strip nm = [] ->
        add_contact args book
        = (text "Value error: Invalid name format. Name must not be empty.",
           book)) /\
     (find nm book = None -> strip nm <> [] ->
        Phone_is_valid (mkPhone phone) = false ->
        add_contact args book
        = (text "Value error: Invalid phone  format. Phone must be 10 digits.",
           book)) /\
     (find nm book = None -> strip nm <> [] ->
        Phone_is_valid (mkPhone phone) = true ->
        add_contact args book
        = (text "Contact added.",
           book ++ [(nm, mkRecord (mkName nm) [mkPhone phone] None)]))) /\
  ((length args < 2)%nat ->
     snd (add_contact args book) = book /\
     exists n, add_contact args book
       = (CReturn (VStr (of_string "Value error: not enough values to unpack (expected 2, got "
                         ++ n ++ of_string ")")), book)) /\
  ((length args > 2)%nat ->
     add_contact args book
     = (text "Value error: too many values to unpack (expected 2)", book)).
Proof.
  unfold add_contact, decorated, add_contact_body, text.
  split; [|split].
  - intros nm phone ->. simpl unpack2. cbv iota beta.
    unfold Record_init, add_phone.
    repeat split.
    + intros F. destruct (contains nm book) eqn:C; [reflexivity|].
      apply contains_false in C. contradiction.
    + intros F S. rewrite (proj2 (contains_false _ _) F). simpl negb. cbv iota.
      destruct (Name_init_cases nm) as [[_ ->]|[S' _]]; [reflexivity|contradiction].
    + intros F S V. rewrite (proj2 (contains_false _ _) F). simpl negb. cbv iota.
      destruct (Name_init_cases nm) as [[S' _]|[_ ->]]; [contradiction|].
      destruct (Phone_init_cases phone) as [[V' _]|[_ ->]]; [congruence|].
      reflexivity.
    + intros F S V. rewrite (proj2 (contains_false _ _) F). simpl negb. cbv iota.
      destruct (Name_init_cases nm) as [[S' _]|[_ ->]]; [contradiction|].
      destruct (Phone_init_cases phone) as [[_ ->]|[V' _]]; [|congruence].
      cbn. unfold add_record. cbn. now rewrite setitem_absent.
  - intros L. destruct args as [|a [|b args]]; simpl in L; try lia.
    + split; [reflexivity|]. now exists (of_string "0").
    + split; [reflexivity|]. now exists (of_string "1").
  - intros L. destruct args as [|a [|b [|c args]]]; simpl in L; try lia.
    reflexivity.
Qed.

Lemma X12_add_contact_witness :
  add_contact [of_string "Bob"; of_string "0987654321"] book0
  = (text "Contact added.",
     book0 ++ [(of_string "Bob",
                mkRecord (mkName (of_string "Bob"))
                  [mkPhone (of_string "0987654321")] None)]) /\
  add_contact [of_string "Alice"; of_string "x"] book0
  = (text "Already have", book0) /\
  add_contact [of_string "Bob"] book0
  = (text "Value error: not enough values to unpack (expected 2, got 1)", book0).
Proof.
  pose proof (X12_add_contact [of_string "Bob"; of_string "0987654321"] book0)
    as [A _].
  pose proof (X12_add_contact [of_string "Alice"; of_string "x"] book0) as [B _].
  pose proof (X12_add_contact [of_string "Bob"] book0) as [_ [C _]].
  split; [|split].
  - apply (A _ _ eq_refl); [reflexivity|vm_compute; discriminate|reflexivity].
  - apply (B _ _ eq_refl). vm_compute. discriminate.
  - destruct (C ltac:(simpl; lia)) as [_ [n E]]. reflexivity.
Defined.

(** [change_contact] replaces the first phone of the contact, whatever
    it is, by the new number and answers "Contact changed."; the other
    phones, the name and the birthday stay.  With a malformed number it
    answers with the text of the ValueError, with a contact that has no
    phone or a name the book does not have it answers "Not found", and in
    these cases the book is unchanged. *)
Theorem X13_change_contact (nm phone : str) (book : AddressBook.t) :
  (find nm book = None ->
     change_contact [nm; phone] book = (text "Not found", book)) /\
  (forall r, find nm book = Some r ->
     (phones r = [] ->
        change_contact [nm; phone] book = (text "Not found", book)) /\
     (forall p0 rest, phones r = p0 :: rest ->
        (Phone_is_valid (mkPhone phone) = false ->
           change_contact [nm; phone] book
           = (text "Value error: Invalid phone  format. Phone must be 10 digits.",
              book)) /\
        (Phone_is_valid (mkPhone phone) = true ->
           change_contact [nm; phone] book
           = (text "Contact changed.",
              Dict.setitem nm (set_phones r (mkPhone phone :: rest)) book) /\
           find nm (snd (change_contact [nm; phone] book))
           = Some (set_phones r (mkPhone phone :: rest))))).
Proof.
  unfold change_contact, decorated, change_contact_body, text. simpl unpack2.
  cbv iota beta. split.
  - intros ->. reflexivity.
  - intros r F. rewrite F. split.
    + intros ->. reflexivity.
    + intros p0 rest E. rewrite E. cbn [index0].
      rewrite (edit_phone_head r p0 rest phone E).
      destruct (Phone_init_cases phone) as [[V ->]|[V ->]]; rewrite V.
      * split; [discriminate|]. intros _. split; [reflexivity|].
        cbn [fst snd]. apply get_setitem_eq.
      * split; [|discriminate]. intros _. cbn.
        unfold find in F. now rewrite (setitem_same _ _ _ F).
Qed.

Lemma X13_change_contact_witness :
  change_contact [of_string "Alice"; of_string "0987654321"] book0
  = (text "Contact changed.",
     [(of_string "Alice",
       mkRecord (mkName (of_string "Alice")) [mkPhone (of_string "0987654321")]
         None)]) /\
  change_contact [of_string "Bob"; of_string "0987654321"] book0
  = (text "Not found", book0).
Proof.
  pose proof (X13_change_contact (of_string "Alice") (of_string "0987654321") book0)
    as [_ A].
  pose proof (X13_change_contact (of_string "Bob") (of_string "0987654321") book0)
    as [B _].
  split; [|apply B; reflexivity].
  destruct (A rec0 eq_refl) as [_ A'].
  destruct (A' _ _ eq_refl) as [_ A''].
  destruct (A'' eq_refl) as [E _]. exact E.
Defined.

(** [show_birthday] on a contact whose birthday is not set raises
    AttributeError, which [input_error] lets through: the call does not
    return.  With the birthday set it returns the date as DD.MM.YYYY; for
    a name the book does not have, and without arguments, it returns "Not
    found".  The book is never changed. *)
Theorem X14_show_birthday (pad_year : bool) (args : list str)
    (book : AddressBook.t) :
  snd (show_birthday pad_year args book) = book /\
  (args = [] -> fst (show_birthday pad_year args book) = text "Not found") /\
  (forall nm rest, args = nm :: rest ->
     (find nm book = None ->
        fst (show_birthday pad_year args book) = text "Not found") /\
     (forall r, find nm book = Some r ->
        (birthday r = None ->
           fst (show_birthday pad_year args book)
           = CRaise (AttributeError "'NoneType' object has no attribute 'value'")) /\
        (forall b, birthday r = Some b ->
           fst (show_birthday pad_year args book)
           = CReturn (VStr (strftime_dmY pad_year (Birthday_value b)))))).
Proof.
  unfold show_birthday, decorated, show_birthday_body, text.
  destruct args as [|nm rest]; cbn [index0 fst snd].
  - split; [reflexivity|]. split; [reflexivity|discriminate].
  - split.
    { destruct (find nm book) as [r|]; [destruct (birthday r)|]; reflexivity. }
    split; [discriminate|]. intros nm' rest' [= <- <-]. split.
    + intros ->. reflexivity.
    + intros r ->. split; [intros ->; reflexivity|].
      intros b ->. reflexivity.
Qed.

Lemma X14_show_birthday_witness :
  fst (show_birthday true [of_string "Alice"] book0)
  = CRaise (AttributeError "'NoneType' object has no attribute 'value'") /\
  fst (show_birthday true [of_string "Bob"] book0) = text "Not found".
Proof.
  pose proof (X14_show_birthday true [of_string "Alice"] book0) as [_ [_ A]].
  pose proof (X14_show_birthday true [of_string "Bob"] book0) as [_ [_ B]].
  split.
  - destruct (A _ _ eq_refl) as [_ A']. destruct (A' rec0 eq_refl) as [A'' _].
    now apply A''.
  - destruct (B _ _ eq_refl) as [B' _]. now apply B'.
Defined.

Lemma canonical_parse_render pad_year s :
  is_canonical s = true ->
  strptime_dmY s = Some (canonical_date s) /\
  ((pad_year = true \/ 1000 <= year (canonical_date s))%Z ->
     strftime_dmY pad_year (canonical_date s) = s).
Proof.
  intros H. apply is_canonical_shape in H
    as (d1 & d2 & m1 & m2 & y1 & y2 & y3 & y4 & -> & D & -> & C).
  cbn [forallb] in D. rewrite !andb_true_iff in D.
  destruct D as (Hd1 & Hd2 & Hm1 & Hm2 & Hy1 & Hy2 & Hy3 & Hy4 & _).
  pose proof (check_date_fields_bounds _ _ _ C) as (_ & Bm & Bd).
  destruct (day_text_canonical d1 d2 Hd1 Hd2 Bd) as [Ld Fd].
  destruct (month_text_canonical m1 m2 Hm1 Hm2 Bm) as [Lm Fm].
  destruct (year_text_canonical y1 y2 y3 y4 Hy1 Hy2 Hy3 Hy4) as (Ly & Fy & Fy').
  split.
  - apply strptime_dmY_spec. split; [|exact C].
    exists [d1; d2], [m1; m2], [y1; y2; y3; y4].
    split; [reflexivity|]. do 3 (split; [assumption|]).
    cbn [year month day].
    rewrite !int_ascii; [auto| | | | | |]; try discriminate;
      cbn [forallb]; rewrite ?andb_true_iff; auto.
  - intros P. unfold strftime_dmY. cbn [year month day].
    rewrite Fd, Fm.
    replace (fmt_Y pad_year (num [y1; y2; y3; y4])) with [y1; y2; y3; y4];
      [reflexivity|].
    destruct P as [->|P]; [now rewrite Fy|].
    destruct pad_year; [now rewrite Fy|now rewrite Fy'].
Qed.

Lemma add_birthday_cmd_new nm bdate x book r :
  find nm book = Some r -> birthday r = None -> strptime_dmY bdate = Some x ->
  add_birthday_cmd [nm; bdate] book
  = (text "Birthday added.",
     Dict.setitem nm (set_birthday r (Some (mkBirthday x))) book).
Proof.
  intros F B S. unfold add_birthday_cmd, decorated, add_birthday_body, text.
  simpl unpack2. cbv iota beta. rewrite F. unfold add_birthday.
  apply Birthday_init_Ok_iff in S. now rewrite S, B.
Qed.

Lemma add_birthday_cmd_again nm bdate x book r :
  find nm book = Some r -> birthday r <> None -> strptime_dmY bdate = Some x ->
  add_birthday_cmd [nm; bdate] book = (text "Already have", book).
Proof.
  intros F B S. unfold add_birthday_cmd, decorated, add_birthday_body, text.
  simpl unpack2. cbv iota beta. rewrite F. unfold add_birthday.
  apply Birthday_init_Ok_iff in S. rewrite S.
  destruct (birthday r); [|congruence]. cbn.
  unfold find in F. now rewrite (setitem_same _ _ _ F).
Qed.

(** The [add-birthday] command: for a name the book does not have it
    answers "Contact not found"; for a text that is no date it answers
    with the text of the ValueError, also when the contact has a birthday;
    for a date and a contact with a birthday it answers "Already have".
    In these three cases the book is unchanged.  For a date and a contact
    without birthday it answers "Birthday added." and the contact, in its
    place in the book, has that birthday. *)
Theorem X15_add_birthday_command (nm bdate : str) (book : AddressBook.t) :
  (find nm book = None ->
     add_birthday_cmd [nm; bdate] book = (text "Contact not found", book)) /\
  (forall r, find nm book = Some r ->
     (strptime_dmY bdate = None ->
        add_birthday_cmd [nm; bdate] book
        = (text "Value error: Invalid date format. Use DD.MM.YYYY", book)) /\
     (forall x, strptime_dmY bdate = Some x ->
        (birthday r <> None ->
           add_birthday_cmd [nm; bdate] book = (text "Already have", book)) /\
        (birthday r = None ->
           add_birthday_cmd [nm; bdate] book
           = (text "Birthday added.",
              Dict.setitem nm (set_birthday r (Some (mkBirthday x))) book) /\
           Dict.keys (snd (add_birthday_cmd [nm; bdate] book)) = Dict.keys book))).
Proof.
  unfold add_birthday_cmd, decorated, add_birthday_body, text. simpl unpack2.
  cbv iota beta. split.
  - intros ->. reflexivity.
  - intros r F. rewrite F. unfold add_birthday. unfold find in F. split.
    + intros S. apply Birthday_init_Raise_iff in S. rewrite S. cbn.
      now rewrite (setitem_same _ _ _ F).
    + intros x S. apply Birthday_init_Ok_iff in S. rewrite S. split.
      * intros B. destruct (birthday r); [|congruence]. cbn.
        now rewrite (setitem_same _ _ _ F).
      * intros ->. split; [reflexivity|]. cbn [snd].
        apply keys_setitem_present.
        destruct (in_dec (list_eq_dec N.eq_dec) nm (Dict.keys book)) as [I|I];
          [exact I|].
        apply get_None_iff in I. congruence.
Qed.

Lemma X15_add_birthday_command_witness :
  add_birthday_cmd [of_string "Bob"; of_string "05.06.1990"] book0
  = (text "Contact not found", book0) /\
  add_birthday_cmd [of_string "Alice"; of_string "31.02.1990"] book0
  = (text "Value error: Invalid date format. Use DD.MM.YYYY", book0) /\
  fst (add_birthday_cmd [of_string "Alice"; of_string "05.06.1990"] book0)
  = text "Birthday added.".
Proof.
  pose proof (X15_add_birthday_command (of_string "Bob") (of_string "05.06.1990")
                book0) as [A _].
  pose proof (X15_add_birthday_command (of_string "Alice") (of_string "31.02.1990")
                book0) as [_ B].
  pose proof (X15_add_birthday_command (of_string "Alice") (of_string "05.06.1990")
                book0) as [_ C].
  split; [apply A; reflexivity|]. split.
  - destruct (B rec0 eq_refl) as [B' _]. apply B'. reflexivity.
  - destruct (C rec0 eq_refl) as [_ C'].
    destruct (C' (mkdate 1990 6 5) eq_refl) as [_ C''].
    destruct (C'' eq_refl) as [E _]. now rewrite E.
Defined.

(** A birthday given to [add-birthday] as a canonical DD.MM.YYYY text is
    what [show-birthday] then prints, character for character, provided
    the year is printed with four digits (year from 1000 on, or a platform
    that pads); a later [add-birthday] with another date does not change
    what is shown. *)
Theorem X16_add_then_show_birthday (pad_year : bool) (nm s : str)
    (book : AddressBook.t) (r : Record_t) :
  find nm book = Some r -> birthday r = None ->
  is_canonical s = true ->
  (pad_year = true \/ 1000 <= year (canonical_date s))%Z ->
  let book1 := snd (add_birthday_cmd [nm; s] book) in
  fst (add_birthday_cmd [nm; s] book) = text "Birthday added." /\
  show_birthday pad_year [nm] book1 = (CReturn (VStr s), book1) /\
  (forall s2 x2, strptime_dmY s2 = Some x2 ->
     add_birthday_cmd [nm; s2] book1 = (text "Already have", book1)).
Proof.
  intros F B C P.
  destruct (canonical_parse_render pad_year s C) as [S R].
  rewrite (add_birthday_cmd_new nm s _ book r F B S). cbn [fst snd].
  assert (find nm (Dict.setitem nm (set_birthday r (Some (mkBirthday (canonical_date s)))) book)
          = Some (set_birthday r (Some (mkBirthday (canonical_date s))))) as F1
    by apply get_setitem_eq.
  split; [reflexivity|]. split.
  - unfold show_birthday, decorated, show_birthday_body. cbn [index0].
    rewrite F1. cbn. now rewrite (R P).
  - intros s2 x2 S2. apply (add_birthday_cmd_again nm s2 x2 _ _ F1); [|exact S2].
    discriminate.
Qed.

Lemma X16_add_then_show_birthday_witness :
  show_birthday false [of_string "Alice"]
    (snd (add_birthday_cmd [of_string "Alice"; of_string "05.06.1990"] book0))
  = (CReturn (VStr (of_string "05.06.1990")),
     snd (add_birthday_cmd [of_string "Alice"; of_string "05.06.1990"] book0)).
Proof.
  apply (X16_add_then_show_birthday false (of_string "Alice")
           (of_string "05.06.1990") book0 rec0); try reflexivity.
  right. vm_compute. discriminate.
Defined.

Lemma birthday_line_text info : birthday_line info = birthday_text info ++ [10%N].
Proof. unfold birthday_line, birthday_text. now rewrite <- !app_assoc. Qed.

Lemma birthday_text_tight info a :
  head (up_name info) = Some a -> isspace a = false -> tight (birthday_text info).
Proof.
  intros H S. exists a, 46%N. unfold birthday_text. split.
  - destruct (up_name info); [discriminate|exact H].
  - split; [|auto]. rewrite !app_assoc. now rewrite head_rev_app by discriminate.
Qed.

(** The [birthdays] command never changes the book.  It answers "Not
    upcoming birthdays" when no birthday is in the window, and the text of
    the ValueError when some birthday does not exist in the year of today
    (29 February in a year that is not a leap year), whatever the other
    birthdays are.  Otherwise, if the names listed do not begin with
    whitespace, the answer has one line per record in the window, in the
    order of the book, with no newline after the last. *)
Theorem X17_birthdays_command (pad_year : bool) (tdate : date)
    (book : AddressBook.t) :
  let listed := List.filter (in_window tdate) (Dict.values book) in
  snd (birthdays pad_year tdate book) = book /\
  (~ replaceable tdate (Dict.values book) ->
     fst (birthdays pad_year tdate book)
     = text "Value error: day is out of range for month") /\
  (replaceable tdate (Dict.values book) ->
     (listed = [] ->
        fst (birthdays pad_year tdate book) = text "Not upcoming birthdays") /\
     (listed <> [] ->
      Forall (fun r => exists a, head (Name_value (name r)) = Some a /\
                                 isspace a = false) listed ->
        fst (birthdays pad_year tdate book)
        = CReturn (VStr (join [10%N]
            (map (fun r => birthday_text (upcoming_of pad_year tdate r)) listed))))).
Proof.
  cbv zeta. unfold birthdays, decorated, birthdays_body, get_upcoming_birthdays.
  split; [|split].
  - destruct (upcoming_loop _ _ _ _) as [[|? ?]|]; reflexivity.
  - intros H. now rewrite upcoming_loop_raises.
  - intros H. rewrite upcoming_loop_ok by exact H. cbn [app]. split.
    + intros ->. reflexivity.
    + intros N F.
      destruct (List.filter (in_window tdate) (Dict.values book)) as [|r rs] eqn:E;
        [congruence|].
      cbn [map fst input_error]. do 2 f_equal.
      change (birthday_line (upcoming_of pad_year tdate r)
              :: map birthday_line (map (upcoming_of pad_year tdate) rs))
        with (map birthday_line (map (upcoming_of pad_year tdate) (r :: rs))).
      rewrite map_map.
      rewrite (map_ext _ (fun r => birthday_text (upcoming_of pad_year tdate r)
                                   ++ [10%N]))
        by (intros; apply birthday_line_text).
      rewrite <- (map_map (fun r => birthday_text (upcoming_of pad_year tdate r))
                    (fun l => l ++ [10%N])).
      rewrite concat_lines by discriminate.
      apply strip_line, join_tight; [discriminate|].
      apply List.Forall_forall. intros t Ht.
      change (In t (map (fun r => birthday_text (upcoming_of pad_year tdate r))
                        (r :: rs))) in Ht.
      apply in_map_iff in Ht as [r0 [<- Hr0]].
      rewrite List.Forall_forall in F. destruct (F r0 Hr0) as (a & Ha & Sa).
      now apply (birthday_text_tight _ a).
Qed.

Lemma X17_birthdays_command_witness :
  fst (birthdays true (mkdate 2023 6 1) book_leap)
  = text "Value error: day is out of range for month" /\
  fst (birthdays true (mkdate 2024 6 20) book_june) = text "Not upcoming birthdays" /\
  fst (birthdays true (mkdate 2024 6 1) book_june)
  = text "Ann's birthday is on Wednesday, 05.06.2024.".
Proof.
  pose proof (X17_birthdays_command true (mkdate 2023 6 1) book_leap) as [_ [A _]].
  pose proof (X17_birthdays_command true (mkdate 2024 6 20) book_june) as [_ [_ B]].
  pose proof (X17_birthdays_command true (mkdate 2024 6 1) book_june) as [_ [_ C]].
  split; [|split].
  - apply A. unfold replaceable. intros H. inversion H as [|? ? [E|E] _]; subst.
    + vm_compute in E. discriminate.
    + apply E. reflexivity.
  - apply B; [|reflexivity]. unfold replaceable.
    repeat (constructor; [right; vm_compute; discriminate|]). constructor.
  - destruct C as [_ C].
    { unfold replaceable.
      repeat (constructor; [right; vm_compute; discriminate|]). constructor. }
    rewrite C; [reflexivity|vm_compute; discriminate|].
    vm_compute. repeat constructor. exists 65%N. split; reflexivity.
Defined.

Lemma add_birthday_phones bdate r :
  phones (snd (add_birthday bdate r)) = phones r /\
  name (snd (add_birthday bdate r)) = name r.
Proof.
  unfold add_birthday. destruct (Birthday_init bdate); [|auto].
  destruct (birthday r); auto.
Qed.

Lemma add_birthday_unchanged bdate r :
  fst (add_birthday bdate r) <> Ok Birthday_added ->
  snd (add_birthday bdate r) = r.
Proof.
  unfold add_birthday. destruct (Birthday_init bdate); [|auto].
  destruct (birthday r); [auto|]. simpl. congruence.
Qed.

(** A command changes the book only when it answers "Contact added.",
    "Contact changed." or "Birthday added.": after any other answer, and
    after an exception that gets through, the book is exactly what it was
    before. *)
Theorem X18_book_changes_only_on_success (pad_year : bool) (c : command)
    (book : AddressBook.t) :
  ~ In (fst (run_command pad_year c book)) success_texts ->
  snd (run_command pad_year c book) = book.
Proof.
  unfold success_texts, text. intros H.
  destruct c as [args|args|args| |args|args|tdate]; cbn [run_command] in *.
  - unfold add_contact, decorated, add_contact_body in *.
    destruct (unpack2 args) as [[nm phone]|e]; [|reflexivity].
    destruct (negb (contains nm book)); [|reflexivity].
    destruct (Record_init nm) as [record|e]; [|reflexivity].
    destruct (add_phone phone record) as [[[]|e] record']; [|reflexivity].
    destruct H. cbn. auto.
  - unfold change_contact, decorated, change_contact_body in *.
    destruct (unpack2 args) as [[nm phone]|e]; [|reflexivity].
    destruct (find nm book) as [r|] eqn:F; [|reflexivity].
    destruct (index0 (phones r)) as [p0|e]; [|reflexivity].
    pose proof (edit_phone_fail_unchanged (Phone_value p0) phone r) as U.
    destruct (edit_phone (Phone_value p0) phone r) as [[[]|e] record'].
    + destruct H. cbn. auto.
    + cbn [fst snd] in *. rewrite (U e eq_refl).
      unfold find in F. apply (setitem_same _ _ _ F).
  - unfold show_phone, decorated, show_phone_body.
    destruct (index0 args) as [nm|e]; [|reflexivity].
    now destruct (find nm book).
  - unfold all_contact, decorated, all_contact_body. now destruct book.
  - unfold add_birthday_cmd, decorated, add_birthday_body in *.
    destruct (unpack2 args) as [[nm bdate]|e]; [|reflexivity].
    destruct (find nm book) as [r|] eqn:F; [|reflexivity].
    pose proof (add_birthday_unchanged bdate r) as U.
    destruct (add_birthday bdate r) as [[status|e] record'];
      cbn [fst snd] in *.
    + assert (record' = r) as ->.
      { apply U. intros [= ->]. apply H. cbn. auto. }
      unfold find in F. apply (setitem_same _ _ _ F).
    + rewrite U by discriminate. unfold find in F. apply (setitem_same _ _ _ F).
  - unfold show_birthday, decorated, show_birthday_body.
    destruct (index0 args) as [nm|e]; [|reflexivity].
    destruct (find nm book) as [r|]; [|reflexivity].
    now destruct (birthday r).
  - unfold birthdays, decorated, birthdays_body.
    now destruct (get_upcoming_birthdays pad_year tdate book) as [[|? ?]|].
Qed.

Lemma X18_book_changes_only_on_success_witness :
  snd (run_command true (CmdChange [of_string "Alice"; of_string "12"]) book0)
  = book0.
Proof.
  apply X18_book_changes_only_on_success.
  vm_compute. intros [H|[H|[H|[]]]]; discriminate H.
Defined.

Lemma Forall_setitem {V} (P : str * V -> Prop) k v d :
  Forall P d -> P (k, v) -> Forall P (Dict.setitem k v d).
Proof.
  rewrite !List.Forall_forall. intros H Hv kv Hkv.
  apply setitem_In in Hkv as [->|Hkv]; auto.
Qed.

Lemma edit_phone_length o n r :
  length (phones (snd (edit_phone o n r))) = length (phones r).
Proof.
  destruct (fst (edit_phone o n r)) as [[]|e] eqn:F.
  - apply edit_phone_Ok_shape in F as (l1 & p & l2 & E & _ & _ & _ & ->).
    simpl. rewrite E, !length_app. reflexivity.
  - now rewrite (edit_phone_fail_unchanged _ _ _ _ F).
Qed.

Lemma found_entry nm (book : AddressBook.t) r (P : str * Record_t -> Prop) :
  find nm book = Some r -> Forall P book -> P (nm, r).
Proof.
  intros F H. apply get_Some_In in F. rewrite List.Forall_forall in H. auto.
Qed.

Lemma run_command_ok pad_year c book :
  command_book_ok book -> command_book_ok (snd (run_command pad_year c book)).
Proof.
  intros (W & K & R). unfold command_book_ok.
  destruct c as [args|args|args| |args|args|tdate]; cbn [run_command].
  - unfold add_contact, decorated, add_contact_body.
    destruct (unpack2 args) as [[nm phone]|e]; [|auto].
    destruct (negb (contains nm book)); [|auto].
    unfold Record_init.
    destruct (Name_init_cases nm) as [[S ->]|[S ->]]; [auto|].
    unfold add_phone. destruct (Phone_init phone) as [p|e] eqn:P; [|auto].
    cbn. apply Phone_init_Ok in P as [-> V].
    split; [now apply wf_setitem|].
    split; [now apply keyed_by_name_setitem|].
    apply Forall_setitem; [exact R|]. cbn. split; [|reflexivity].
    split; [exact S|]. split; [repeat constructor; exact V|discriminate].
  - unfold change_contact, decorated, change_contact_body.
    destruct (unpack2 args) as [[nm phone]|e]; [|auto].
    destruct (find nm book) as [r|] eqn:F; [|auto].
    destruct (index0 (phones r)) as [p0|e]; [|auto].
    pose proof (found_entry _ _ _ _ F R) as [Rr Lr]. cbn [snd] in Rr, Lr.
    pose proof (found_entry _ _ _ _ F K) as Kr. cbn [fst snd] in Kr.
    pose proof (run_op_ok r (OpEditPhone (Phone_value p0) phone) Rr) as Ok'.
    pose proof (run_op_name r (OpEditPhone (Phone_value p0) phone)) as Nm.
    pose proof (edit_phone_length (Phone_value p0) phone r) as Ln.
    cbn [run_op] in Ok', Nm.
    destruct (edit_phone (Phone_value p0) phone r) as [res record'].
    cbn [snd] in Ok', Nm, Ln.
    assert (command_book_ok (Dict.setitem nm record' book)) as G.
    { split; [now apply wf_setitem|].
      split; [apply keyed_by_name_setitem; [now rewrite Nm|exact K]|].
      apply Forall_setitem; [exact R|]. cbn. split; [exact Ok'|lia]. }
    destruct res; exact G.
  - unfold show_phone, decorated, show_phone_body.
    destruct (index0 args) as [nm|e]; [|auto]. destruct (find nm book); auto.
  - unfold all_contact, decorated, all_contact_body. destruct book; auto.
  - unfold add_birthday_cmd, decorated, add_birthday_body.
    destruct (unpack2 args) as [[nm bdate]|e]; [|auto].
    destruct (find nm book) as [r|] eqn:F; [|auto].
    pose proof (found_entry _ _ _ _ F R) as [Rr Lr]. cbn [snd] in Rr, Lr.
    pose proof (found_entry _ _ _ _ F K) as Kr. cbn [fst snd] in Kr.
    pose proof (run_op_ok r (OpAddBirthday bdate) Rr) as Ok'.
    pose proof (add_birthday_phones bdate r) as [Ph Nm].
    cbn [run_op] in Ok'.
    destruct (add_birthday bdate r) as [res record'].
    cbn [snd] in Ok', Nm, Ph.
    assert (command_book_ok (Dict.setitem nm record' book)) as G.
    { split; [now apply wf_setitem|].
      split; [apply keyed_by_name_setitem; [now rewrite Nm|exact K]|].
      apply Forall_setitem; [exact R|]. cbn. split; [exact Ok'|].
      now rewrite Ph. }
    destruct res; exact G.
  - unfold show_birthday, decorated, show_birthday_body.
    destruct (index0 args) as [nm|e]; [|auto].
    destruct (find nm book) as [r|]; [|auto]. destruct (birthday r); auto.
  - unfold birthdays, decorated, birthdays_body.
    destruct (get_upcoming_birthdays pad_year tdate book) as [[|? ?]|]; auto.
Qed.

(** In a book filled through the commands, starting from the empty book
    and whatever the commands and their arguments are, no name occurs
    twice, every record is stored under its own name, that name is not
    blank, and every contact has exactly one phone, of ten digits (so
    [change] always finds a first phone to replace), and a birthday, if
    any, that is a real date. *)
Theorem X19_command_book_invariant (pad_year : bool) (cs : list command) :
  let book := run_commands pad_year cs AddressBook.empty in
  Dict.wf book /\ keyed_by_name book /\ unique_names book /\
  forall nm r, find nm book = Some r ->
    Name_value (name r) = nm /\ strip nm <> [] /\
    (exists p, phones r = [p] /\ Phone_is_valid p = true) /\
    (forall b, birthday r = Some b -> valid_date (Birthday_value b)).
Proof.
  cbv zeta.
  assert (command_book_ok (run_commands pad_year cs AddressBook.empty))
    as (W & K & R).
  { unfold run_commands.
    assert (command_book_ok AddressBook.empty) as H0.
    { split; [apply NoDup_nil_2|]. split; constructor. }
    revert H0. generalize AddressBook.empty.
    induction cs as [|c cs IH]; intros b Hb; simpl; [exact Hb|].
    apply IH. now apply run_command_ok. }
  split; [exact W|]. split; [exact K|].
  split; [now apply invariant_unique_names|].
  intros nm r F.
  pose proof (found_entry _ _ _ _ F R) as [(Hn & Hp & Hb) Lr].
  pose proof (found_entry _ _ _ _ F K) as Kr. cbn [fst snd] in *.
  split; [exact Kr|]. split; [now rewrite <- Kr|]. split; [|exact Hb].
  destruct (phones r) as [|p [|? ?]]; try discriminate.
  exists p. split; [reflexivity|]. now inversion Hp.
Qed.

Lemma X19_command_book_invariant_witness :
  exists p,
    phones (mkRecord (mkName (of_string "Bob"))
              [mkPhone (of_string "0987654321")] None) = [p] /\
    Phone_is_valid p = true.
Proof.
  pose proof (X19_command_book_invariant true
                [CmdAdd [of_string "Bob"; of_string "1234567890"];
                 CmdChange [of_string "Bob"; of_string "0987654321"];
                 CmdAdd [of_string "Bob"; of_string "5550001111"]])
    as (_ & _ & _ & H).
  exact (proj1 (proj2 (proj2 (H (of_string "Bob") _ eq_refl)))).
Defined.

(* ------------------------------------------------------------------ *)
(** *** The loop                                                       *)
(* ------------------------------------------------------------------ *)

Lemma parse_input_words lower user_input cmd args :
  split user_input = cmd :: args ->
  parse_input lower user_input = CReturn (VTuple (lower cmd :: args)).
Proof.
  intros E. unfold parse_input, parse_input_body. rewrite E. cbn.
  pose proof (split_from_tokens user_input [] ltac:(constructor)) as T.
  fold (split user_input) in T. rewrite E in T.
  inversion T as [|? ? [N F] _]; subst.
  now rewrite (proj1 (token_facts cmd N F)).
Qed.

Lemma parse_input_blank lower user_input :
  all_whitespace user_input = true ->
  parse_input lower user_input
  = text "Value error: not enough values to unpack (expected at least 1, got 0)".
Proof.
  intros H. unfold parse_input, parse_input_body, split.
  now rewrite split_from_blank.
Qed.

Lemma is_word_false w command :
  command <> of_string w -> is_word w command = false.
Proof. intros H. unfold is_word. now apply bool_decide_eq_false_2. Qed.

(** A blank line is answered with "Invalid command." (the error text of
    [parse_input] is itself unpacked, and its first letter is taken for
    the command), and so is a line whose first word, lower-cased, is none
    of the command words; neither changes the book nor ends the loop. *)
Theorem X20_invalid_command (lower : list N -> list N) (pad_year : bool)
    (tdate : date) (user_input : str) (book : AddressBook.t) :
  (all_whitespace user_input = true ->
     main_step lower pad_year tdate user_input book
     = ([Print (VStr (of_string "Invalid command."))], book, Continue)) /\
  (forall cmd args, split user_input = cmd :: args ->
     (forall w, In w command_words -> lower cmd <> of_string w) ->
     main_step lower pad_year tdate user_input book
     = ([Print (VStr (of_string "Invalid command."))], book, Continue)).
Proof.
  split.
  - intros H. unfold main_step. rewrite (parse_input_blank lower _ H).
    reflexivity.
  - intros cmd args E H. unfold main_step.
    rewrite (parse_input_words lower _ _ _ E). cbn [unpack_star].
    rewrite !is_word_false; [reflexivity| | | | | | | | | | |];
      apply H; unfold command_words; simpl; tauto.
Qed.

Lemma X20_invalid_command_witness :
  main_step (fun s => s) true (mkdate 2024 6 1) (of_string "   ") book0
  = ([Print (VStr (of_string "Invalid command."))], book0, Continue) /\
  main_step (fun s => s) true (mkdate 2024 6 1) (of_string "delete Alice") book0
  = ([Print (VStr (of_string "Invalid command."))], book0, Continue).
Proof.
  pose proof (X20_invalid_command (fun s => s) true (mkdate 2024 6 1)
                (of_string "   ") book0) as [A _].
  pose proof (X20_invalid_command (fun s => s) true (mkdate 2024 6 1)
                (of_string "delete Alice") book0) as [_ B].
  split; [apply A; reflexivity|].
  apply (B (of_string "delete") [of_string "Alice"] eq_refl).
  intros w Hw. unfold command_words in Hw. simpl in Hw.
  destruct_or! Hw; subst; try contradiction; vm_compute; discriminate.
Defined.

Lemma display_message_events r b :
  ~ In (SaveData b) (fst (fst (display_message r))) /\
  snd (display_message r) <> Stop.
Proof.
  unfold display_message. destruct (fst r); simpl; split;
    try discriminate; intuition discriminate.
Qed.

Lemma display_contact_events r b :
  ~ In (SaveData b) (fst (fst (display_contact r))) /\
  snd (display_contact r) <> Stop.
Proof.
  unfold display_contact. destruct (fst r) as [[[|? ?]|?|?]|?]; simpl; split;
    try discriminate; intuition discriminate.
Qed.

Lemma all_command_events cmds b : ~ In (SaveData b) (all_command cmds).
Proof.
  unfold all_command. intros H. apply in_map_iff in H as [? [H _]]. discriminate.
Qed.

(** The book is handed to [save_data] in one case only, the turn that
    ends the loop on [close] or [exit], and then it is the book as it is,
    followed by "Good bye!".  A turn that an exception ends saves
    nothing. *)
Theorem X21_saved_only_on_exit (lower : list N -> list N) (pad_year : bool)
    (tdate : date) (user_input : str) (book : AddressBook.t) :
  let r := main_step lower pad_year tdate user_input book in
  ((exists b, In (SaveData b) (fst (fst r))) <-> snd r = Stop) /\
  (snd r = Stop ->
     r = ([SaveData book; Print (VStr (of_string "Good bye!"))], book, Stop)) /\
  (forall cmd args, split user_input = cmd :: args ->
     lower cmd = of_string "close" \/ lower cmd = of_string "exit" ->
     snd r = Stop).
Proof.
  cbv zeta. unfold main_step.
  destruct (parse_input lower user_input) as [v|e] eqn:P.
  2:{ split; [split; [intros [b []]|discriminate]|].
      split; [discriminate|]. intros cmd args E _.
      rewrite (parse_input_words lower _ _ _ E) in P. discriminate. }
  destruct (unpack_star v) as [[command args0]|e] eqn:U.
  2:{ split; [split; [intros [b []]|discriminate]|].
      split; [discriminate|]. intros cmd args E _.
      rewrite (parse_input_words lower _ _ _ E) in P. injection P as <-.
      discriminate. }
  destruct (is_word "close" command || is_word "exit" command) eqn:X.
  { split; [split; [reflexivity|intros _; exists book; now left]|].
    split; reflexivity. }
  assert (forall cmd args, split user_input = cmd :: args ->
            lower cmd = of_string "close" \/ lower cmd = of_string "exit" -> False)
    as NX.
  { intros cmd args E L. rewrite (parse_input_words lower _ _ _ E) in P.
    injection P as <-. injection U as <- <-.
    unfold is_word in X. destruct L as [L|L]; rewrite L in X;
      vm_compute in X; discriminate. }
  repeat match goal with
         | |- context [if ?c then _ else _] => destruct c
         end;
    (split; [split; [intros [b H]; exfalso|intros H; exfalso]|
             split; [intros H; exfalso|intros cmd args E L; exfalso; eauto]]);
    try (now apply display_message_events in H);
    try (now apply display_contact_events in H);
    try (now apply all_command_events in H);
    try (revert H; now apply display_message_events);
    try (revert H; now apply display_contact_events);
    try discriminate H;
    try (destruct H as [H|[]]; discriminate H).
Qed.

Lemma X21_saved_only_on_exit_witness :
  snd (main_step (fun s => s) true (mkdate 2024 6 1) (of_string "exit") book0)
  = Stop.
Proof.
  apply (proj2 (proj2 (X21_saved_only_on_exit (fun s => s) true (mkdate 2024 6 1)
                         (of_string "exit") book0))
           (of_string "exit") [] eq_refl).
  now right.
Defined.

(** [show-birthday] for a contact whose birthday is not set ends the
    program: the AttributeError is not among the exceptions [input_error]
    turns into a text, so it leaves [main]; nothing is printed and the
    book is not saved. *)
Theorem X22_show_birthday_ends_program (lower : list N -> list N)
    (pad_year : bool) (tdate : date) (user_input : str) (book : AddressBook.t)
    (cmd nm : str) (rest : list str) (r : Record_t) :
  split user_input = cmd :: nm :: rest ->
  lower cmd = of_string "show-birthday" ->
  find nm book = Some r -> birthday r = None ->
  main_step lower pad_year tdate user_input book
  = ([], book, Crash (AttributeError "'NoneType' object has no attribute 'value'")).
Proof.
  intros E L F B. unfold main_step.
  rewrite (parse_input_words lower _ _ _ E), L. cbn [unpack_star].
  change (is_word "close" (of_string "show-birthday")) with false.
  change (is_word "exit" (of_string "show-birthday")) with false.
  change (is_word "help" (of_string "show-birthday")) with false.
  change (is_word "hello" (of_string "show-birthday")) with false.
  change (is_word "add" (of_string "show-birthday")) with false.
  change (is_word "change" (of_string "show-birthday")) with false.
  change (is_word "phone" (of_string "show-birthday")) with false.
  change (is_word "all" (of_string "show-birthday")) with false.
  change (is_word "add-birthday" (of_string "show-birthday")) with false.
  change (is_word "show-birthday" (of_string "show-birthday")) with true.
  cbn [orb]. cbv iota.
  unfold display_message, show_birthday, decorated, show_birthday_body.
  cbn [index0]. rewrite F, B. reflexivity.
Qed.

Lemma X22_show_birthday_ends_program_witness :
  main_step (fun s => s) true (mkdate 2024 6 1)
    (of_string "show-birthday Alice") book0
  = ([], book0, Crash (AttributeError "'NoneType' object has no attribute 'value'")).
Proof.
  apply (X22_show_birthday_ends_program (fun s => s) true (mkdate 2024 6 1)
           (of_string "show-birthday Alice") book0
           (of_string "show-birthday") (of_string "Alice") [] rec0);
    reflexivity.
Defined.

Lemma to_str_nonempty pad_year (book : AddressBook.t) :
  book <> [] ->
  to_str pad_year book
  = join [10%N] (map (Record_str pad_year) (Dict.values book)) /\
  to_str pad_year book <> [].
Proof.
  intros N.
  assert (tight (join [10%N] (map (Record_str pad_year) (Dict.values book)))) as T.
  { apply join_tight; [destruct book; [congruence|discriminate]|].
    apply List.Forall_forall. intros t Ht.
    apply in_map_iff in Ht as [r [<- _]]. apply Record_str_tight. }
  assert (to_str pad_year book
          = join [10%N] (map (Record_str pad_year) (Dict.values book))) as E.
  { unfold to_str.
    rewrite <- (map_map (Record_str pad_year) (fun l => l ++ [10%N])).
    rewrite concat_lines by (destruct book; [congruence|discriminate]).
    now apply strip_line. }
  split; [exact E|]. rewrite E.
  destruct T as (a & _ & Ha & _). intros Z. rewrite Z in Ha. discriminate.
Qed.

(** The [all] command ignores its arguments and never changes the book:
    it prints "Not found" for the empty book and otherwise the records,
    one per line in the order of the book. *)
Theorem X23_all_command (lower : list N -> list N) (pad_year : bool)
    (tdate : date) (user_input : str) (book : AddressBook.t)
    (cmd : str) (args : list str) :
  split user_input = cmd :: args ->
  lower cmd = of_string "all" ->
  main_step lower pad_year tdate user_input book
  = ([Print (VStr (match book with
                   | [] => of_string "Not found"
                   | _ => join [10%N] (map (Record_str pad_year) (Dict.values book))
                   end))],
     book, Continue).
Proof.
  intros E L. unfold main_step.
  rewrite (parse_input_words lower _ _ _ E), L. cbn [unpack_star].
  change (is_word "close" (of_string "all")) with false.
  change (is_word "exit" (of_string "all")) with false.
  change (is_word "help" (of_string "all")) with false.
  change (is_word "hello" (of_string "all")) with false.
  change (is_word "add" (of_string "all")) with false.
  change (is_word "change" (of_string "all")) with false.
  change (is_word "phone" (of_string "all")) with false.
  change (is_word "all" (of_string "all")) with true.
  cbn [orb]. cbv iota.
  unfold display_contact, all_contact, decorated, all_contact_body.
  destruct book as [|kv book]; [reflexivity|].
  destruct (to_str_nonempty pad_year (kv :: book)) as [T N]; [discriminate|].
  cbn [fst snd input_error]. rewrite <- T.
  now destruct (to_str pad_year (kv :: book)).
Qed.

Lemma X23_all_command_witness :
  main_step (fun s => s) true (mkdate 2024 6 1) (of_string "all please") book0
  = ([Print (VStr (of_string
        "Contact name: Alice, phones: 1234567890, birthday: N/A"))],
     book0, Continue).
Proof.
  apply (X23_all_command (fun s => s) true (mkdate 2024 6 1)
           (of_string "all please") book0 (of_string "all") [of_string "please"]);
    reflexivity.
Defined.
